(** * Orchestration core of the multi-agent data-analytics supervisor

    A shallow embedding of [agents.py] (the supervisor's routing decision and
    the specialist bridge [run_specialist]) and of the save stages of the
    tools in [tools.py], followed by the properties of the orchestration
    core.

    Python [str] values are modelled as [string]; a character stands for a
    code point below 256.  The reasoning backend, the specialist agents and
    the pandas / scikit-learn computations are external collaborators: they
    appear as arguments of the embedded functions. *)

From Stdlib Require Import String Ascii List ZArith Lia Bool Arith.
From Stdlib Require Import Numbers.DecimalString.
Import ListNotations.

Open Scope string_scope.

(** ** Python string primitives *)

Module PyStr.

(** [p in s]: [p] occurs in [s] as a contiguous substring. *)
Fixpoint contains (p s : string) : bool :=
  prefix p s ||
  match s with
  | EmptyString => false
  | String _ s' => contains p s'
  end.

(** [str.isspace] on one code point below 256. *)
Definition is_space (c : ascii) : bool :=
  let n := nat_of_ascii c in
  ((9 <=? n)%nat && (n <=? 13)%nat) || ((28 <=? n)%nat && (n <=? 32)%nat)
  || (n =? 133)%nat || (n =? 160)%nat.

Fixpoint lstrip (s : string) : string :=
  match s with
  | EmptyString => EmptyString
  | String c s' => if is_space c then lstrip s' else s
  end.

Fixpoint rstrip (s : string) : string :=
  match s with
  | EmptyString => EmptyString
  | String c s' =>
      let r := rstrip s' in
      if is_space c && (r =? "") then EmptyString else String c r
  end.

(** [s.strip()] *)
Definition strip (s : string) : string := rstrip (lstrip s).

(** [str.lower] on one code point below 256: A-Z and the accented capitals
    of Latin-1 move up by 32. *)
Definition lower_char (c : ascii) : ascii :=
  let n := nat_of_ascii c in
  if ((65 <=? n)%nat && (n <=? 90)%nat)
     || ((192 <=? n)%nat && (n <=? 222)%nat && negb (n =? 215)%nat)
  then ascii_of_nat (n + 32) else c.

(** [s.lower()] *)
Fixpoint lower (s : string) : string :=
  match s with
  | EmptyString => EmptyString
  | String c s' => String (lower_char c) (lower s')
  end.

(** [s.startswith(p)] *)
Definition startswith (p s : string) : bool := prefix p s.

(** [s.endswith(suf)]: some tail of [s] is [suf]. *)
Fixpoint endswith (suf s : string) : bool :=
  (s =? suf) ||
  match s with
  | EmptyString => false
  | String _ s' => endswith suf s'
  end.

(** [s[:n]] and [s[n:]] for [0 <= n]. *)
Fixpoint take (n : nat) (s : string) : string :=
  match n, s with
  | S k, String c s' => String c (take k s')
  | _, _ => EmptyString
  end.

Fixpoint drop (n : nat) (s : string) : string :=
  match n, s with
  | S k, String _ s' => drop k s'
  | _, _ => s
  end.

Fixpoint rfind_from (c : ascii) (s : string) (i acc : Z) : Z :=
  match s with
  | EmptyString => acc
  | String x s' =>
      rfind_from c s' (i + 1) (if Ascii.eqb x c then i else acc)
  end.

(** [s.rfind(c)] for a one-character [c]: the highest index, or -1. *)
Definition rfind (c : ascii) (s : string) : Z := rfind_from c s 0 (-1).

(** [s.replace(old, new)] for a non-empty [old]: the occurrences are
    replaced from the left and do not overlap; [skip] counts the characters
    of a replaced occurrence still to be passed over. *)
Fixpoint replace_from (old new s : string) (skip : nat) : string :=
  match s with
  | EmptyString => EmptyString
  | String c s' =>
      match skip with
      | S k => replace_from old new s' k
      | O =>
          if prefix old s
          then new ++ replace_from old new s' (String.length old - 1)
          else String c (replace_from old new s' 0)
      end
  end.

Definition replace (old new s : string) : string :=
  replace_from old new s 0.

(** Number of positions of [s] at which [p] occurs. *)
Fixpoint count (p s : string) : nat :=
  (if prefix p s then 1 else 0) +
  match s with
  | EmptyString => 0
  | String _ s' => count p s'
  end.

(** [str(n)] for a non-negative integer. *)
Definition str_of_nat (n : nat) : string :=
  NilEmpty.string_of_uint (Nat.to_uint n).

End PyStr.

(** ** state.py *)

Inductive role : Type := SystemRole | HumanRole | AIRole | ToolRole.

(** A message object; [content = None] is an object without a [content]
    attribute (the case [hasattr(m, "content")] guards against). *)
Record message : Type := mkMessage {
  msg_role : role;
  content : option string
}.

Definition SystemMessage (c : string) : message := mkMessage SystemRole (Some c).
Definition HumanMessage (c : string) : message := mkMessage HumanRole (Some c).
Definition AIMessage (c : string) : message := mkMessage AIRole (Some c).
Definition ToolMessage (c : string) : message := mkMessage ToolRole (Some c).

(** [AgentState]: a key of the dictionary that is absent is [None]. *)
Record AgentState : Type := mkState {
  messages : list message;
  next_node : option string;
  df_path : option string
}.

(** [d.get(key, default)] *)
Definition get_or (v : option string) (default : string) : string :=
  match v with
  | Some x => x
  | None => default
  end.

(** ** agents.py: the supervisor *)

Definition dq : string := String (ascii_of_nat 34) EmptyString.

Definition members : list string :=
  ["cleaning_agent"; "clustering_agent"; "visualization_agent"].

Definition options : list string := (members ++ ["FINISH"])%list.

(** The loop [for option in options: if option in content: ...; break],
    started with [detected_agent = "FINISH"]. *)
Fixpoint detect_loop (opts : list string) (content detected : string) : string :=
  match opts with
  | [] => detected
  | option :: rest =>
      if PyStr.contains option content then option
      else detect_loop rest content detected
  end.

(** The part of [supervisor_node] after the backend call: [content] is the
    stripped answer.  The trailing [if ... : pass] of the source does
    nothing. *)
Definition detect_agent (content : string) : string :=
  detect_loop options content "FINISH".

(** From the raw backend answer to the routed action. *)
Definition decide (raw : string) : string :=
  detect_agent (PyStr.strip raw).

(** The system prompt of the supervisor; [{members}] is the rendering of the
    list of members and [path] is [state.get('df_path', 'None')]. *)
Definition supervisor_prompt (path : string) : string :=
  "You are a dedicated Autonomous Data Analytics Manager. 
        Your goal is to COMPLETELY execute the user's requested workflow without stopping for human input until the very end.
        
        Current members: ['cleaning_agent', 'clustering_agent', 'visualization_agent']
        Active Data File: " ++ path ++ "
        
        THE PLAN (Execute in Order):
        1. CHECK DATA: If nulls/outliers exist -> call cleaning_agent.
        2. ANALYZE: If user wants EDA -> call cleaning_agent (perform_eda).
        3. CLUSTER: If user requested clustering -> call clustering_agent. (CRITICAL: Do not skip this if requested!)
        4. VISUALIZE: If user requested plots/viz -> call visualization_agent.
        
        STRICT RULES:
        - CHECK THE CHAT HISTORY. Have you performed Clustering yet? If no, and the user asked for it, CALL clustering_agent.
        - Have you performed Visualization yet? If no, and the user asked for it, CALL visualization_agent.
        - Ignore any polite " ++ dq ++ "Let me know/Ask me" ++ dq ++ " text from the sub-agents. They are subordinates. You are the boss.
        - If the cleaning agent says " ++ dq ++ "ready for clustering" ++ dq ++ ", YOU MUST CALL clustering_agent.
        - DO NOT CALL FINISH until you see a 'Cluster Visualization' or 'Scatter Plot' in the history.
        
        Reply ONLY with the name of the next agent or FINISH.".

(** [supervisor_node]: the backend [llm] maps the message list to the text of
    its answer, or fails ([None]: the call raises).  The result is the value
    of the key [next_node] of the returned update. *)
Definition supervisor_node (llm : list message -> option string)
    (state : AgentState) : option string :=
  let msgs :=
    SystemMessage (supervisor_prompt (get_or (df_path state) "None"))
    :: messages state in
  match llm msgs with
  | Some response => Some (decide response)
  | None => None
  end.

(** ** agents.py: the specialist bridge *)

(** The injected context entry. *)
Definition context_msg (current_path : string) : message :=
  SystemMessage ("
    IMPORTANT: The currently active data file path is: " ++ current_path ++ ". 
    This is an ABSOLUTE PATH. You MUST use this EXACT string for all tool 'file_path' arguments.
    
    INSTRUCTIONS:
    1. If you use 'clean_data', it will save a new file (identifiable by '_cleaned' in the path).
    2. If you see high correlations in 'perform_eda', use 'clean_data' ONCE more with 'drop_columns' (using the SUGGESTED DROPS from the EDA report) to fix them.
    3. Once you have performed your specific task (e.g. cleaning, EDA, or clustering), summarize what was done and then FINISH YOUR TURN.
    4. REPORT: " ++ dq ++ "Task Complete. Data is ready for [Next Step]." ++ dq ++ "
    5. FORBIDDEN: Do NOT ask the user " ++ dq ++ "How would you like to proceed?" ++ dq ++ ". Do NOT saying " ++ dq ++ "Let me know" ++ dq ++ ". Just report facts and exit.
    6. DO NOT loop indefinitely. Perform the action, summarize, and exit.
    ").

Definition newline : ascii := ascii_of_nat 10.

(** The group [(.*?\.csv)] matched at the start of [s]: the lazy star takes
    as few characters as it can, none of them a newline. *)
Fixpoint lazy_csv (s : string) : option string :=
  if prefix ".csv" s then Some ".csv"
  else
    match s with
    | EmptyString => None
    | String c s' =>
        if Ascii.eqb c newline then None
        else option_map (String c) (lazy_csv s')
    end.

(** The pattern [saved to: (.*?\.csv)] matched at the start of [s]. *)
Definition match_saved_at (s : string) : option string :=
  if prefix "saved to: " s then lazy_csv (PyStr.drop 10 s) else None.

(** [re.search(r"saved to: (.*?\.csv)", s)], giving [match.group(1)]: the
    leftmost position at which the pattern matches. *)
Fixpoint re_search_saved (s : string) : option string :=
  match match_saved_at s with
  | Some g => Some g
  | None =>
      match s with
      | EmptyString => None
      | String _ s' => re_search_saved s'
      end
  end.

(** The loop [for m in reversed(new_messages)] of [run_specialist]; [ms] is
    the reversed list and [path] the value of [df_path] before the loop. *)
Fixpoint scan_saved (ms : list message) (path : string) : string :=
  match ms with
  | [] => path
  | m :: rest =>
      match content m with
      | Some last_msg =>
          if PyStr.contains "saved to:" (PyStr.lower last_msg) then
            match re_search_saved last_msg with
            | Some g => PyStr.strip g
            | None => scan_saved rest path
            end
          else scan_saved rest path
      | None => scan_saved rest path
      end
  end.

(** The update returned by [run_specialist]. *)
Record SpecialistUpdate : Type := mkUpdate {
  upd_messages : list message;
  upd_df_path : string
}.

Definition recursion_limit : nat := 50.

(** The state handed to the specialist: a copy with the context entry
    appended. *)
Definition local_state (state : AgentState) : AgentState :=
  mkState
    (messages state
       ++ [context_msg (get_or (df_path state) "No file uploaded")])%list
    (next_node state) (df_path state).

(** [run_specialist]: [agent] is [agent.invoke], from the state and the
    recursion limit to the messages of its result, or [None] when it
    raises. *)
Definition run_specialist
    (agent : AgentState -> nat -> option (list message))
    (name : string) (state : AgentState) : option SpecialistUpdate :=
  let local := local_state state in
  let history_len := List.length (messages local) in
  match agent local recursion_limit with
  | None => None
  | Some result_messages =>
      let new_messages := skipn history_len result_messages in
      let path := scan_saved (rev new_messages) (get_or (df_path state) "") in
      Some (mkUpdate new_messages path)
  end.

(** ** os.path.splitext *)

Inductive os_flavour : Type := Posix | Nt.

Definition os_sep (fl : os_flavour) : ascii :=
  match fl with
  | Posix => "/"%char
  | Nt => "\"%char
  end.

Definition os_altsep (fl : os_flavour) : option ascii :=
  match fl with
  | Posix => None
  | Nt => Some "/"%char
  end.

Definition extsep : ascii := "."%char.

(** [p[i:i+1]] for [0 <= i]. *)
Definition slice1 (p : string) (i : Z) : string :=
  PyStr.take 1 (PyStr.drop (Z.to_nat i) p).

(** The loop [while filenameIndex < dotIndex] of [genericpath._splitext],
    which skips the leading dots of the file name; [n] is the number of
    iterations left, and [None] is the loop running to its end. *)
Fixpoint splitext_loop (p : string) (dotIndex filenameIndex : Z) (n : nat)
  : option (string * string) :=
  match n with
  | O => None
  | S k =>
      if negb (slice1 p filenameIndex =? String extsep "")
      then Some (PyStr.take (Z.to_nat dotIndex) p,
                 PyStr.drop (Z.to_nat dotIndex) p)
      else splitext_loop p dotIndex (filenameIndex + 1) k
  end.

(** [genericpath._splitext(p, sep, altsep, extsep)] *)
Definition _splitext (p : string) (sep : ascii) (altsep : option ascii)
  : string * string :=
  let sepIndex := PyStr.rfind sep p in
  let sepIndex :=
    match altsep with
    | Some a => Z.max sepIndex (PyStr.rfind a p)
    | None => sepIndex
    end in
  let dotIndex := PyStr.rfind extsep p in
  if (dotIndex >? sepIndex)%Z then
    match splitext_loop p dotIndex (sepIndex + 1)
            (Z.to_nat (dotIndex - (sepIndex + 1))) with
    | Some r => r
    | None => (p, EmptyString)
    end
  else (p, EmptyString).

Definition splitext (fl : os_flavour) (p : string) : string * string :=
  _splitext p (os_sep fl) (os_altsep fl).

(** The index of the last separator of a path, as [_splitext] computes it
    for a flavour. *)
Definition sep_index (fl : os_flavour) (p : string) : Z :=
  match os_altsep fl with
  | Some a => Z.max (PyStr.rfind (os_sep fl) p) (PyStr.rfind a p)
  | None => PyStr.rfind (os_sep fl) p
  end.

(** ** tools.py: the save stages *)

Section Tools.

(** The values of one column of a dataframe. *)
Variable column : Type.

Record DataFrame : Type := mkFrame {
  df_columns : list (string * column);
  df_rows : nat
}.

(** [df.empty]: one of the two axes has length 0. *)
Definition df_empty (df : DataFrame) : bool :=
  (df_rows df =? 0)%nat ||
  match df_columns df with
  | [] => true
  | _ :: _ => false
  end.

Definition column_names (df : DataFrame) : list string :=
  map fst (df_columns df).

Fixpoint assign (name : string) (v : column) (cols : list (string * column))
  : list (string * column) :=
  match cols with
  | [] => [(name, v)]
  | (n, w) :: rest =>
      if n =? name then (n, v) :: rest else (n, w) :: assign name v rest
  end.

(** [df[name] = v]: an existing column is overwritten in its place, a new
    one is added at the end. *)
Definition set_column (name : string) (v : column) (df : DataFrame)
  : DataFrame :=
  mkFrame (assign name v (df_columns df)) (df_rows df).

(** The files written so far, the most recent first. *)
Definition filesystem : Type := list (string * DataFrame).

(** [df.to_csv(path, index=False)] *)
Definition to_csv (df : DataFrame) (path : string) (fs : filesystem)
  : filesystem :=
  (path, df) :: fs.

Fixpoint read_file (fs : filesystem) (path : string) : option DataFrame :=
  match fs with
  | [] => None
  | (p, df) :: rest => if p =? path then Some df else read_file rest path
  end.

Definition mem (c : string) (l : list string) : bool :=
  existsb (String.eqb c) l.

(** A list argument is true when it is given and not empty. *)
Definition truthy (l : option (list string)) : bool :=
  match l with
  | Some (_ :: _) => true
  | _ => false
  end.

(** Step 4 of [clean_data]: the derivation of the output path. *)
Definition clean_output_path (fl : os_flavour) (file_path : string)
  : string :=
  let (base, ext) := splitext fl file_path in
  if PyStr.endswith "_cleaned" base then file_path
  else base ++ "_cleaned" ++ ext.

(** [clean_data] with the pandas computations taken as given: [df0] is the
    dataframe read from [file_path], [df] the dataframe after steps 0 to 3,
    and [repr] renders a list of strings as an f-string does.  The result
    is the file system after the call and the returned text. *)
Definition clean_data (fl : os_flavour) (repr : list string -> string)
    (file_path : string) (drop_columns : option (list string))
    (df0 df : DataFrame) (fs : filesystem) : filesystem * string :=
  if df_empty df0 then
    (fs, "Error: The file at " ++ file_path ++ " is empty.")
  else if df_empty df then
    (fs, "Error: Cleaning process resulted in an empty dataset. Check your null threshold or outlier settings.")
  else
    let existing_drops :=
      filter (fun c => mem c (column_names df0))
             (match drop_columns with Some l => l | None => [] end) in
    let output_path := clean_output_path fl file_path in
    let fs' := to_csv df output_path fs in
    let msg := "Data cleaning complete. Saved to: " ++ output_path ++ "." in
    let msg :=
      if truthy drop_columns
      then msg ++ " Dropped: " ++ repr existing_drops ++ "."
      else msg in
    (fs', msg ++ " Handled nulls, validated types, and sanitized "
              ++ PyStr.str_of_nat (df_rows df) ++ " rows.").

(** Step 5 of [perform_clustering]: the derivation of the output path. *)
Definition cluster_output_path (file_path : string) : string :=
  PyStr.replace ".csv" "_clustered.csv" file_path.

(** [perform_clustering] from step 3 on, with the K-Means labels
    [clusters] and the two PCA components taken as given; [df] is the
    dataframe read from [file_path]. *)
Definition perform_clustering (file_path : string) (df : DataFrame)
    (clusters pca1 pca2 : column) (fs : filesystem) : filesystem * string :=
  let df := set_column "Cluster" clusters df in
  let df := set_column "PCA1" pca1 df in
  let df := set_column "PCA2" pca2 df in
  let output_path := cluster_output_path file_path in
  let fs' := to_csv df output_path fs in
  (fs', "Clustering complete. Results saved to: " ++ output_path
        ++ ". PCA components (PCA1, PCA2) and 'Cluster' labels added.").

End Tools.

Arguments mkFrame {column}.
Arguments df_columns {column}.
Arguments df_rows {column}.
Arguments df_empty {column}.
Arguments column_names {column}.
Arguments assign {column}.
Arguments set_column {column}.
Arguments to_csv {column}.
Arguments read_file {column}.
Arguments clean_data {column}.
Arguments perform_clustering {column}.

(** ** Save markers, as the properties speak of them *)

(** The path declared by the leftmost save marker of a message: what
    [re.search] finds in its content, stripped. *)
Definition marker_path (m : message) : option string :=
  match content m with
  | Some c => option_map PyStr.strip (re_search_saved c)
  | None => None
  end.

(** The paths declared by all the save markers of a text, from left to
    right: one for each position at which the pattern matches. *)
Fixpoint all_markers (s : string) : list string :=
  (match match_saved_at s with
   | Some g => [PyStr.strip g]
   | None => []
   end ++
   match s with
   | EmptyString => []
   | String _ s' => all_markers s'
   end)%list.

(** The save markers of a batch of messages, the oldest first. *)
Definition batch_markers (ms : list message) : list string :=
  flat_map (fun m => match content m with
                     | Some c => all_markers c
                     | None => []
                     end) ms.

(** The last element of a list, if any. *)
Definition last_of (l : list string) : option string :=
  match rev l with
  | [] => None
  | x :: _ => Some x
  end.

(** A specialist that appends [delta] to the messages it is given. *)
Definition appending_agent (delta : list message)
  : AgentState -> nat -> option (list message) :=
  fun st _ => Some (messages st ++ delta)%list.

(** ** tools.py: the remaining tools *)


Definition nl : string := String newline EmptyString.

(** [sep.join(l)] *)
Fixpoint join (sep : string) (l : list string) : string :=
  match l with
  | [] => EmptyString
  | [x] => x
  | x :: rest => x ++ sep ++ join sep rest
  end.

(** The report of [perform_eda] on a file with numerical data: the
    correlations are computed by pandas, so the rendered pairs above the
    threshold, the rendering of the suggested drops and the rendering of
    [df.shape] are taken as given. *)
Definition eda_report (high_corr_pairs : list string)
    (drops_repr shape_repr : string) : string :=
  let report := "EDA Report:" ++ nl in
  let report :=
    match high_corr_pairs with
    | _ :: _ =>
        (report ++ "- High Correlations Found: "
           ++ join ", " high_corr_pairs ++ "." ++ nl)
        ++ "- SUGGESTED DROPS to avoid multicollinearity: "
        ++ drops_repr ++ nl
    | [] => report ++ "- No extreme multicollinearity detected (>0.85)." ++ nl
    end in
  let report := report ++ "- Data Shape: " ++ shape_repr ++ nl in
  report
    ++ "- Signals generated for UI: Correlation Heatmap and Feature Distributions.".

(** ** agents.py: the graph *)

Inductive node : Type :=
| SupervisorNode
| CleaningNode
| ClusteringNode
| VisualizationNode
| EndNode.

(** The mapping of [add_conditional_edges]. *)
Definition conditional_edges : list (string * node) :=
  [("cleaning_agent", CleaningNode);
   ("clustering_agent", ClusteringNode);
   ("visualization_agent", VisualizationNode);
   ("FINISH", EndNode)].

Fixpoint lookup_edge (edges : list (string * node)) (key : string)
  : option node :=
  match edges with
  | [] => None
  | (k, n) :: rest => if k =? key then Some n else lookup_edge rest key
  end.

(** The three specialists bound to the runner. *)
Record Agents : Type := mkAgents {
  cleaning_agent : AgentState -> nat -> option (list message);
  clustering_agent : AgentState -> nat -> option (list message);
  visualization_agent : AgentState -> nat -> option (list message)
}.

(** The reducer of the key [messages], for new messages that carry fresh
    identifiers: they are put after the ones there. *)
Definition add_messages (left right : list message) : list message :=
  (left ++ right)%list.

(** The state after the update of the supervisor: [next_node] is
    overwritten. *)
Definition apply_supervisor (state : AgentState) (action : string)
  : AgentState :=
  mkState (messages state) (Some action) (df_path state).

(** The state after the update of a specialist: [messages] goes through its
    reducer and [df_path] is overwritten. *)
Definition apply_specialist (state : AgentState) (upd : SpecialistUpdate)
  : AgentState :=
  mkState (add_messages (messages state) (upd_messages upd))
          (next_node state) (Some (upd_df_path upd)).

Definition specialist_step (agent : AgentState -> nat -> option (list message))
    (name : string) (state : AgentState) : option (node * AgentState) :=
  match run_specialist agent name state with
  | Some upd => Some (SupervisorNode, apply_specialist state upd)
  | None => None
  end.

(** One node of the graph runs: the node and the state that follow, or
    [None] when the node raises (or, at the end node, when there is nothing
    to run).  After the supervisor the edge is chosen by
    [lambda x: x["next_node"]] through the mapping; after a specialist the
    edge leads back to the supervisor. *)
Definition graph_step (llm : list message -> option string) (ags : Agents)
    (cur : node) (state : AgentState) : option (node * AgentState) :=
  match cur with
  | SupervisorNode =>
      match supervisor_node llm state with
      | Some action =>
          match lookup_edge conditional_edges action with
          | Some next => Some (next, apply_supervisor state action)
          | None => None
          end
      | None => None
      end
  | CleaningNode =>
      specialist_step (cleaning_agent ags) "cleaning_agent" state
  | ClusteringNode =>
      specialist_step (clustering_agent ags) "clustering_agent" state
  | VisualizationNode =>
      specialist_step (visualization_agent ags) "visualization_agent" state
  | EndNode => None
  end.

Inductive outcome : Type :=
| Finished (state : AgentState)
| LimitReached (state : AgentState)
| Raised.

(** The graph runs from [cur] until the end node, for at most [limit]
    nodes. *)
Fixpoint run_graph (limit : nat) (llm : list message -> option string)
    (ags : Agents) (cur : node) (state : AgentState) : outcome :=
  match cur with
  | EndNode => Finished state
  | _ =>
      match limit with
      | O => LimitReached state
      | S k =>
          match graph_step llm ags cur state with
          | Some (next, state') => run_graph k llm ags next state'
          | None => Raised
          end
      end
  end.

(** ** app.py *)

(** An entry of [st.session_state.messages]. *)
Record chat_entry : Type := mkEntry {
  entry_role : string;
  entry_content : string
}.

(** The start of [process_request]: the prompt is recorded unless an entry
    with the same content is there. *)
Definition record_prompt (prompt : string) (entries : list chat_entry)
  : list chat_entry :=
  if existsb (fun m => entry_content m =? prompt) entries
  then entries
  else (entries ++ [mkEntry "user" prompt])%list.

(** The test before the cluster view: [df_path] is set, not empty, and has
    "_clustered.csv" in it. *)
Definition shows_cluster_view (path : option string) : bool :=
  match path with
  | Some p => negb (p =? "") && PyStr.contains "_clustered.csv" p
  | None => false
  end.

(** The test before the EDA view, on the text of the last AI message. *)
Definition shows_eda_view (final_output : string) : bool :=
  PyStr.contains "signals generated for ui" (PyStr.lower final_output).

(** * Properties *)

(** ** Facts on strings *)

Module StrFacts.
Import PyStr.

Lemma append_nil_r (s : string) : s ++ "" = s.
Proof. induction s as [|c s IH]; simpl; [reflexivity | now rewrite IH]. Qed.

Lemma append_assoc (a b c : string) : (a ++ b) ++ c = a ++ (b ++ c).
Proof. induction a as [|x a IH]; simpl; [reflexivity | now rewrite IH]. Qed.

Lemma length_append (a b : string) :
  String.length (a ++ b) = String.length a + String.length b.
Proof. induction a as [|x a IH]; simpl; [reflexivity | now rewrite IH]. Qed.

Lemma prefix_cons (a b : ascii) (p s : string) :
  prefix (String a p) (String b s) = Ascii.eqb a b && prefix p s.
Proof.
  simpl. destruct (ascii_dec a b) as [->|n].
  - now rewrite Ascii.eqb_refl.
  - apply Ascii.eqb_neq in n. now rewrite n.
Qed.

Lemma prefix_app (p b : string) : prefix p (p ++ b) = true.
Proof.
  induction p as [|c p IH]; simpl.
  - now destruct b.
  - destruct (ascii_dec c c); [exact IH | congruence].
Qed.

Lemma prefix_inv (p s : string) :
  prefix p s = true -> exists b, s = p ++ b.
Proof.
  revert s. induction p as [|c p IH]; intros s H.
  - now exists s.
  - destruct s as [|d s]; [discriminate|].
    rewrite prefix_cons in H. apply andb_true_iff in H as [Hc Hp].
    apply Ascii.eqb_eq in Hc. subst d.
    destruct (IH _ Hp) as [b ->]. now exists b.
Qed.

Lemma contains_prefix (p s : string) :
  prefix p s = true -> contains p s = true.
Proof. destruct s; simpl; intros ->; reflexivity. Qed.

Lemma contains_intro (p a b : string) : contains p (a ++ p ++ b) = true.
Proof.
  induction a as [|c a IH].
  - change ("" ++ p ++ b) with (p ++ b).
    apply contains_prefix, prefix_app.
  - simpl. rewrite IH. apply orb_true_r.
Qed.

Lemma contains_nil (p : string) : contains p "" = prefix p "".
Proof. unfold contains. apply orb_false_r. Qed.

Lemma contains_cons (p : string) (c : ascii) (s : string) :
  contains p (String c s) = prefix p (String c s) || contains p s.
Proof. reflexivity. Qed.

Lemma contains_inv (p s : string) :
  contains p s = true -> exists a b, s = a ++ p ++ b.
Proof.
  induction s as [|c s IH]; intros H.
  - rewrite contains_nil in H. apply prefix_inv in H as [b ->].
    now exists "", b.
  - rewrite contains_cons in H. apply orb_true_iff in H as [H|H].
    + apply prefix_inv in H as [b ->]. now exists "", b.
    + destruct (IH H) as (a & b & ->). now exists (String c a), b.
Qed.

(** Occurring in a part is occurring in the whole. *)
Lemma contains_within (p a s b : string) :
  contains p s = true -> contains p (a ++ s ++ b) = true.
Proof.
  intros H. apply contains_inv in H as (a' & b' & ->).
  replace (a ++ (a' ++ p ++ b') ++ b) with ((a ++ a') ++ p ++ (b' ++ b)).
  - apply contains_intro.
  - now rewrite !append_assoc.
Qed.

Lemma lstrip_part (s : string) : exists a, s = a ++ lstrip s.
Proof.
  induction s as [|c s [a IH]]; simpl.
  - now exists "".
  - destruct (is_space c).
    + exists (String c a). simpl. now rewrite <- IH.
    + now exists "".
Qed.

Lemma rstrip_part (s : string) : exists b, s = rstrip s ++ b.
Proof.
  induction s as [|c s [b IH]]; simpl.
  - now exists "".
  - destruct (is_space c && (rstrip s =? "")).
    + now exists (String c s).
    + exists b. simpl. now rewrite <- IH.
Qed.

Lemma strip_part (s : string) : exists a b, s = a ++ strip s ++ b.
Proof.
  unfold strip. destruct (lstrip_part s) as [a Ha].
  destruct (rstrip_part (lstrip s)) as [b Hb].
  exists a, b. now rewrite <- Hb.
Qed.

(** What occurs in the stripped text occurs in the text. *)
Lemma contains_strip_sound (p s : string) :
  contains p (strip s) = true -> contains p s = true.
Proof.
  intros H. destruct (strip_part s) as (a & b & E).
  rewrite E. now apply contains_within.
Qed.

Lemma lstrip_keeps (a p : string) (c : ascii) (q b : string) :
  p = String c q -> is_space c = false ->
  exists a', lstrip (a ++ p ++ b) = a' ++ p ++ b.
Proof.
  intros -> Hc. induction a as [|x a IH]; simpl.
  - rewrite Hc. now exists "".
  - destruct (is_space x); [exact IH|]. now exists (String x a).
Qed.

Lemma rstrip_nonspace (c : ascii) (b : string) :
  is_space c = false -> rstrip (String c b) = String c (rstrip b).
Proof. intros H. simpl. now rewrite H. Qed.

Lemma rstrip_app (a s : string) :
  rstrip s <> "" -> rstrip (a ++ s) = a ++ rstrip s.
Proof.
  intros H. induction a as [|x a IH]; simpl; [reflexivity|].
  rewrite IH. destruct (a ++ rstrip s) eqn:E.
  - destruct a; simpl in E; [contradiction | discriminate].
  - simpl. now rewrite andb_false_r.
Qed.

Lemma rstrip_keeps (a p : string) (c : ascii) (q b : string) :
  p = q ++ String c "" -> is_space c = false ->
  exists b', rstrip (a ++ p ++ b) = a ++ p ++ b'.
Proof.
  intros -> Hc. exists (rstrip b).
  replace (a ++ (q ++ String c "") ++ b) with ((a ++ q) ++ String c b)
    by (now rewrite !append_assoc).
  rewrite rstrip_app.
  - rewrite rstrip_nonspace by assumption. now rewrite !append_assoc.
  - rewrite rstrip_nonspace by assumption. discriminate.
Qed.

(** A word that starts and ends with a character that is not white space
    survives [strip]. *)
Lemma contains_strip_complete (p s : string) (c d : ascii) (q r : string) :
  p = String c q -> p = r ++ String d "" ->
  is_space c = false -> is_space d = false ->
  contains p s = true -> contains p (strip s) = true.
Proof.
  intros Hp1 Hp2 Hc Hd H. apply contains_inv in H as (a & b & ->).
  unfold strip.
  destruct (lstrip_keeps a p c q b Hp1 Hc) as [a' ->].
  destruct (rstrip_keeps a' p d r b Hp2 Hd) as [b' ->].
  apply contains_intro.
Qed.

Lemma contains_strip (p s : string) (c d : ascii) (q r : string) :
  p = String c q -> p = r ++ String d "" ->
  is_space c = false -> is_space d = false ->
  contains p (strip s) = contains p s.
Proof.
  intros Hp1 Hp2 Hc Hd.
  destruct (contains p s) eqn:E.
  - eapply contains_strip_complete; eauto.
  - destruct (contains p (strip s)) eqn:E'; [|reflexivity].
    apply contains_strip_sound in E'. congruence.
Qed.

End StrFacts.

(** ** The routing decision *)

Module Router.
Import PyStr StrFacts.

(** None of the four action names starts or ends with white space, so
    stripping the answer changes nothing for them. *)
Lemma option_strip (o raw : string) :
  In o options -> contains o (strip raw) = contains o raw.
Proof.
  unfold options, members. simpl. intros [H|[H|[H|[H|[]]]]]; subst o.
  - now apply (contains_strip _ _ "c" "t" "leaning_agent" "cleaning_agen").
  - now apply (contains_strip _ _ "c" "t" "lustering_agent" "clustering_agen").
  - now apply (contains_strip _ _ "v" "t" "isualization_agent"
                              "visualization_agen").
  - now apply (contains_strip _ _ "F" "H" "INISH" "FINIS").
Qed.

(** The decision as a cascade of tests on the raw answer. *)
Lemma decide_cascade (raw : string) :
  decide raw =
    if contains "cleaning_agent" raw then "cleaning_agent"
    else if contains "clustering_agent" raw then "clustering_agent"
    else if contains "visualization_agent" raw then "visualization_agent"
    else "FINISH".
Proof.
  unfold decide, detect_agent, options, members.
  cbn [app detect_loop].
  rewrite !option_strip by (unfold options, members; simpl; tauto).
  destruct (contains "cleaning_agent" raw); [reflexivity|].
  destruct (contains "clustering_agent" raw); [reflexivity|].
  destruct (contains "visualization_agent" raw); [reflexivity|].
  now destruct (contains "FINISH" raw).
Qed.

Lemma decide_in_options (raw : string) : In (decide raw) options.
Proof.
  rewrite decide_cascade. unfold options, members. simpl.
  destruct (contains "cleaning_agent" raw); [tauto|].
  destruct (contains "clustering_agent" raw); [tauto|].
  destruct (contains "visualization_agent" raw); tauto.
Qed.

Lemma supervisor_node_decide (llm : list message -> option string)
    (state : AgentState) (raw : string) :
  llm (SystemMessage (supervisor_prompt (get_or (df_path state) "None"))
       :: messages state) = Some raw ->
  supervisor_node llm state = Some (decide raw).
Proof. unfold supervisor_node. now intros ->. Qed.

Example decide_empty : decide "" = "FINISH".
Proof. reflexivity. Qed.

Example decide_whitespace : decide "   " = "FINISH".
Proof. reflexivity. Qed.

Example decide_all_three :
  decide "visualization_agent, clustering_agent or cleaning_agent"
  = "cleaning_agent".
Proof. reflexivity. Qed.

(** C1: whatever text the reasoning backend returns, [supervisor_node]
    returns one action, and it is one of cleaning_agent, clustering_agent,
    visualization_agent and FINISH; it is never empty. *)
Theorem supervisor_action_closed (llm : list message -> option string)
    (state : AgentState) (raw : string) :
  llm (SystemMessage (supervisor_prompt (get_or (df_path state) "None"))
       :: messages state) = Some raw ->
  exists action,
    supervisor_node llm state = Some action /\
    In action ["cleaning_agent"; "clustering_agent"; "visualization_agent";
               "FINISH"] /\
    action <> "".
Proof.
  intros H. exists (decide raw). split; [|split].
  - now apply supervisor_node_decide.
  - apply (decide_in_options raw).
  - pose proof (decide_in_options raw) as Hin.
    unfold options, members in Hin. simpl in Hin.
    intros E. rewrite E in Hin.
    destruct Hin as [Hin|[Hin|[Hin|[Hin|[]]]]]; discriminate.
Qed.

Lemma supervisor_action_closed_witness :
  exists action,
    supervisor_node (fun _ => Some "  ") (mkState [] None None)
    = Some action /\
    In action ["cleaning_agent"; "clustering_agent"; "visualization_agent";
               "FINISH"] /\
    action <> "".
Proof.
  apply (supervisor_action_closed (fun _ => Some "  ") (mkState [] None None)
           "  ").
  reflexivity.
Defined.

(** C2: when the answer mentions an agent and also the token FINISH, the
    decision is an agent mentioned in the answer, not FINISH, and it is
    that very agent when no other agent is mentioned; on the answer
    "I think we should proceed with clustering_agent next." the decision
    is clustering_agent. *)
Theorem agent_wins_over_finish :
  (forall raw a : string,
      In a members ->
      contains a raw = true ->
      contains "FINISH" raw = true ->
      decide raw <> "FINISH" /\
      In (decide raw) members /\
      contains (decide raw) raw = true /\
      ((forall b, In b members -> contains b raw = true -> b = a) ->
       decide raw = a)) /\
  decide "I think we should proceed with clustering_agent next."
  = "clustering_agent".
Proof.
  split; [|reflexivity].
  intros raw a Ha Hc _. rewrite decide_cascade.
  unfold members in *. simpl in Ha.
  destruct (contains "cleaning_agent" raw) eqn:E1.
  { split; [discriminate|]. split; [simpl; tauto|]. split; [assumption|].
    intros U. apply U; [simpl; tauto | assumption]. }
  destruct (contains "clustering_agent" raw) eqn:E2.
  { split; [discriminate|]. split; [simpl; tauto|]. split; [assumption|].
    intros U. apply U; [simpl; tauto | assumption]. }
  destruct (contains "visualization_agent" raw) eqn:E3.
  { split; [discriminate|]. split; [simpl; tauto|]. split; [assumption|].
    intros U. apply U; [simpl; tauto | assumption]. }
  destruct Ha as [<-|[<-|[<-|[]]]]; congruence.
Qed.

Lemma agent_wins_over_finish_witness :
  decide "FINISH? No: clustering_agent" <> "FINISH" /\
  In (decide "FINISH? No: clustering_agent") members /\
  contains (decide "FINISH? No: clustering_agent")
    "FINISH? No: clustering_agent" = true /\
  ((forall b, In b members ->
              contains b "FINISH? No: clustering_agent" = true ->
              b = "clustering_agent") ->
   decide "FINISH? No: clustering_agent" = "clustering_agent").
Proof.
  apply (proj1 agent_wins_over_finish "FINISH? No: clustering_agent"
           "clustering_agent").
  - simpl. tauto.
  - reflexivity.
  - reflexivity.
Defined.

(** C3: when none of the four action names occurs in the answer, the
    decision is FINISH. *)
Theorem failsafe_default (raw : string) :
  (forall o, In o options -> contains o raw = false) ->
  decide raw = "FINISH".
Proof.
  intros H. rewrite decide_cascade.
  rewrite !H by (unfold options, members; simpl; tauto).
  reflexivity.
Qed.

Lemma failsafe_default_witness :
  decide "I am not sure what to do." = "FINISH".
Proof.
  apply failsafe_default.
  unfold options, members. simpl.
  intros o [H|[H|[H|[H|[]]]]]; subst o; reflexivity.
Defined.

(** C10: when the answer mentions two or more distinct agents, the decision
    is the mentioned agent that stands first in the list of members,
    wherever the names stand in the answer. *)
Theorem first_listed_agent_wins (raw a b : string) :
  In a members -> In b members -> a <> b ->
  contains a raw = true -> contains b raw = true ->
  exists before after,
    members = (before ++ decide raw :: after)%list /\
    contains (decide raw) raw = true /\
    forall x, In x before -> contains x raw = false.
Proof.
  intros Ha Hb Hab Hca Hcb. rewrite decide_cascade.
  unfold members in *. simpl in Ha, Hb.
  destruct (contains "cleaning_agent" raw) eqn:E1.
  { exists [], ["clustering_agent"; "visualization_agent"].
    split; [reflexivity | split; [assumption|]]. intros x []. }
  destruct (contains "clustering_agent" raw) eqn:E2.
  { exists ["cleaning_agent"], ["visualization_agent"].
    split; [reflexivity | split; [assumption|]].
    intros x [<-|[]]. exact E1. }
  destruct (contains "visualization_agent" raw) eqn:E3.
  { exists ["cleaning_agent"; "clustering_agent"], [].
    split; [reflexivity | split; [assumption|]].
    intros x [<-|[<-|[]]]; assumption. }
  destruct Ha as [<-|[<-|[<-|[]]]]; congruence.
Qed.

Lemma first_listed_agent_wins_witness :
  exists before after,
    members
    = (before ++ decide "visualization_agent, then clustering_agent"
         :: after)%list /\
    contains (decide "visualization_agent, then clustering_agent")
      "visualization_agent, then clustering_agent" = true /\
    forall x, In x before ->
              contains x "visualization_agent, then clustering_agent"
              = false.
Proof.
  apply (first_listed_agent_wins
           "visualization_agent, then clustering_agent"
           "visualization_agent" "clustering_agent").
  - simpl. tauto.
  - simpl. tauto.
  - discriminate.
  - reflexivity.
  - reflexivity.
Defined.

Example first_listed_not_first_in_text :
  decide "visualization_agent, then clustering_agent" = "clustering_agent".
Proof. reflexivity. Qed.

End Router.

(** ** The specialist bridge *)

Module Bridge.
Import PyStr StrFacts.

Lemma lower_app (a b : string) : lower (a ++ b) = lower a ++ lower b.
Proof. induction a as [|c a IH]; simpl; [reflexivity | now rewrite IH]. Qed.

Lemma re_search_unfold (s : string) :
  re_search_saved s =
    match match_saved_at s with
    | Some g => Some g
    | None =>
        match s with
        | EmptyString => None
        | String _ s' => re_search_saved s'
        end
    end.
Proof. destruct s; reflexivity. Qed.

Lemma match_saved_at_phrase (s g : string) :
  match_saved_at s = Some g -> exists b, s = "saved to: " ++ b.
Proof.
  unfold match_saved_at.
  destruct (prefix "saved to: " s) eqn:E; [|discriminate].
  intros _. now apply prefix_inv.
Qed.

Lemma search_phrase (s g : string) :
  re_search_saved s = Some g -> exists a b, s = a ++ "saved to: " ++ b.
Proof.
  induction s as [|c s IH]; rewrite re_search_unfold.
  - destruct (match_saved_at "") eqn:E; intros H; [|discriminate].
    apply match_saved_at_phrase in E as [b E]. now exists "", b.
  - destruct (match_saved_at (String c s)) eqn:E; intros H.
    + apply match_saved_at_phrase in E as [b E]. now exists "", b.
    + destruct (IH H) as (a & b & ->). now exists (String c a), b.
Qed.

(** A text in which the pattern matches passes the test on its lowered
    copy. *)
Lemma search_passes_guard (s g : string) :
  re_search_saved s = Some g -> contains "saved to:" (lower s) = true.
Proof.
  intros H. apply search_phrase in H as (a & b & ->).
  rewrite !lower_app.
  change (lower "saved to: ") with ("saved to:" ++ " ").
  rewrite append_assoc. apply contains_intro.
Qed.

(** The pattern matches leftmost: at some position, and at none before. *)
Lemma search_leftmost (s g : string) :
  re_search_saved s = Some g ->
  exists i, match_saved_at (drop i s) = Some g /\
            forall j, j < i -> match_saved_at (drop j s) = None.
Proof.
  induction s as [|c s IH]; rewrite re_search_unfold.
  - destruct (match_saved_at "") eqn:E; intros H; [|discriminate].
    injection H as <-. exists 0. split; [exact E | intros j Hj; lia].
  - destruct (match_saved_at (String c s)) eqn:E; intros H.
    + injection H as <-. exists 0. split; [exact E | intros j Hj; lia].
    + destruct (IH H) as (i & Hi & Hlt). exists (S i). split; [exact Hi|].
      intros [|j] Hj; [exact E | apply Hlt; lia].
Qed.

(** The captured group is a path without newline that ends in ".csv",
    taken from the text. *)
Lemma lazy_csv_shape (s g : string) :
  lazy_csv s = Some g ->
  exists q rest, s = g ++ rest /\ g = q ++ ".csv" /\
                 contains (String newline "") q = false.
Proof.
  revert g. induction s as [|c s IH]; intros g.
  - simpl. discriminate.
  - change (lazy_csv (String c s)) with
      (if prefix ".csv" (String c s) then Some ".csv"
       else if Ascii.eqb c newline then None
            else option_map (String c) (lazy_csv s)).
    destruct (prefix ".csv" (String c s)) eqn:P.
    + intros H. injection H as <-. apply prefix_inv in P as [rest P].
      exists "", rest. now rewrite P.
    + destruct (Ascii.eqb c newline) eqn:N; [discriminate|].
      destruct (lazy_csv s) as [g'|] eqn:L; [|discriminate].
      simpl. intros H. injection H as <-.
      destruct (IH g' eq_refl) as (q & rest & -> & -> & Hq).
      exists (String c q), rest. repeat split.
      rewrite contains_cons, Hq, prefix_cons, Ascii.eqb_sym, N.
      reflexivity.
Qed.

Lemma scan_no_marker (ms : list message) (d : string) :
  (forall x, In x ms -> marker_path x = None) -> scan_saved ms d = d.
Proof.
  induction ms as [|m ms IH]; intros H; [reflexivity|].
  assert (Hm : marker_path m = None) by (apply H; now left).
  assert (Hrest : scan_saved ms d = d) by (apply IH; intros x Hx; apply H; now right).
  unfold marker_path in Hm. simpl.
  destruct (content m) as [c|]; [|exact Hrest].
  destruct (re_search_saved c); [discriminate|].
  now destruct (contains "saved to:" (lower c)).
Qed.

Lemma scan_first_marker (l1 l2 : list message) (m : message) (p d : string) :
  (forall x, In x l1 -> marker_path x = None) ->
  marker_path m = Some p ->
  scan_saved (l1 ++ m :: l2) d = p.
Proof.
  intros H Hm. induction l1 as [|y l1 IH].
  - unfold marker_path in Hm. simpl.
    destruct (content m) as [c|]; [|discriminate].
    destruct (re_search_saved c) as [g|] eqn:R; [|discriminate].
    rewrite (search_passes_guard c g R). simpl in Hm. congruence.
  - assert (Hy : marker_path y = None) by (apply H; now left).
    assert (Hrest : scan_saved (l1 ++ m :: l2) d = p)
      by (apply IH; intros x Hx; apply H; now right).
    unfold marker_path in Hy. simpl.
    destruct (content y) as [c|]; [|exact Hrest].
    destruct (re_search_saved c); [discriminate|].
    now destruct (contains "saved to:" (lower c)).
Qed.

Lemma run_specialist_returns
    (agent : AgentState -> nat -> option (list message))
    (name : string) (state : AgentState) (result : list message) :
  agent (local_state state) recursion_limit = Some result ->
  run_specialist agent name state =
    Some (mkUpdate
            (skipn (List.length (messages state) + 1) result)
            (scan_saved
               (rev (skipn (List.length (messages state) + 1) result))
               (get_or (df_path state) ""))).
Proof.
  intros H. unfold run_specialist. rewrite H.
  unfold local_state. cbn [messages]. now rewrite List.length_app.
Qed.

Lemma skipn_length_app (A : Type) (l delta : list A) :
  skipn (List.length l) (l ++ delta)%list = delta.
Proof. induction l as [|x l IH]; simpl; [reflexivity | exact IH]. Qed.

(** C7: the returned new messages are the messages of the result beyond
    the length recorded before the call, a length that counts the context
    entry; so when the specialist's result is the messages it was given
    followed by its own, the new messages are its own and nothing else:
    neither an earlier message nor the context entry. *)
Theorem delta_isolation
    (agent : AgentState -> nat -> option (list message))
    (name : string) (state : AgentState) (result : list message) :
  agent (local_state state) recursion_limit = Some result ->
  exists upd,
    run_specialist agent name state = Some upd /\
    upd_messages upd
    = skipn (List.length (messages (local_state state))) result /\
    List.length (messages (local_state state))
    = List.length (messages state) + 1 /\
    forall delta,
      result
      = (messages state
           ++ [context_msg (get_or (df_path state) "No file uploaded")]
           ++ delta)%list ->
      upd_messages upd = delta.
Proof.
  intros H. rewrite (run_specialist_returns agent name state result H).
  eexists. split; [reflexivity|]. cbn [upd_messages].
  assert (L : List.length (messages (local_state state))
              = List.length (messages state) + 1).
  { unfold local_state. cbn [messages]. now rewrite List.length_app. }
  split; [now rewrite L | split; [exact L|]].
  intros delta ->. rewrite <- L. unfold local_state. cbn [messages].
  rewrite List.app_assoc. apply skipn_length_app.
Qed.

Lemma delta_isolation_witness :
  exists upd,
    run_specialist (appending_agent [AIMessage "Task Complete."])
      "cleaning_agent"
      (mkState [HumanMessage "clean"] None (Some "/data/raw.csv"))
    = Some upd /\
    upd_messages upd = [AIMessage "Task Complete."].
Proof.
  destruct (delta_isolation (appending_agent [AIMessage "Task Complete."])
              "cleaning_agent"
              (mkState [HumanMessage "clean"] None (Some "/data/raw.csv"))
              (messages
                 (local_state
                    (mkState [HumanMessage "clean"] None
                       (Some "/data/raw.csv")))
                 ++ [AIMessage "Task Complete."])%list
              eq_refl) as (upd & Hrun & _ & _ & Hdelta).
  exists upd. split; [exact Hrun|].
  apply Hdelta. reflexivity.
Defined.

(** C4, amended: the returned pointer is the path declared in the last new
    message that carries a save marker, and within that message in its
    leftmost marker; the messages before it are not looked at.  Without
    any save marker in the new messages the returned pointer is the one of
    the input state (the empty string when the state has none). *)
Theorem pointer_follows_last_marked_message
    (agent : AgentState -> nat -> option (list message))
    (name : string) (state : AgentState) (result : list message) :
  agent (local_state state) recursion_limit = Some result ->
  exists upd,
    run_specialist agent name state = Some upd /\
    (forall older m newer p,
        upd_messages upd = (older ++ m :: newer)%list ->
        marker_path m = Some p ->
        (forall x, In x newer -> marker_path x = None) ->
        upd_df_path upd = p) /\
    ((forall x, In x (upd_messages upd) -> marker_path x = None) ->
     upd_df_path upd = get_or (df_path state) "").
Proof.
  intros H. rewrite (run_specialist_returns agent name state result H).
  eexists. split; [reflexivity|]. cbn [upd_messages upd_df_path].
  split.
  - intros older m newer p -> Hm Hnewer.
    rewrite rev_app_distr. cbn [rev]. rewrite <- List.app_assoc.
    apply scan_first_marker; [|exact Hm].
    intros x Hx. apply Hnewer. now apply in_rev.
  - intros Hnone. apply scan_no_marker.
    intros x Hx. apply Hnone. now apply in_rev.
Qed.

Lemma pointer_follows_last_marked_message_witness :
  exists upd,
    run_specialist
      (appending_agent
         [ToolMessage "Results saved to: /data/a.csv. Done.";
          ToolMessage "Results saved to: /data/b.csv. Done.";
          AIMessage "Task Complete."])
      "clustering_agent"
      (mkState [HumanMessage "cluster"] None (Some "/data/raw.csv"))
    = Some upd /\
    upd_df_path upd = "/data/b.csv".
Proof.
  destruct (pointer_follows_last_marked_message
              (appending_agent
                 [ToolMessage "Results saved to: /data/a.csv. Done.";
                  ToolMessage "Results saved to: /data/b.csv. Done.";
                  AIMessage "Task Complete."])
              "clustering_agent"
              (mkState [HumanMessage "cluster"] None (Some "/data/raw.csv"))
              (messages
                 (local_state
                    (mkState [HumanMessage "cluster"] None
                       (Some "/data/raw.csv")))
                 ++ [ToolMessage "Results saved to: /data/a.csv. Done.";
                     ToolMessage "Results saved to: /data/b.csv. Done.";
                     AIMessage "Task Complete."])%list
              eq_refl) as (upd & Hrun & Hlast & _).
  exists upd. split; [exact Hrun|].
  apply (Hlast [ToolMessage "Results saved to: /data/a.csv. Done."]
               (ToolMessage "Results saved to: /data/b.csv. Done.")
               [AIMessage "Task Complete."]).
  - rewrite (run_specialist_returns _ _ _ _ eq_refl) in Hrun.
    injection Hrun as <-. reflexivity.
  - reflexivity.
  - intros x [<-|[]]. reflexivity.
Defined.

(** C4 as stated fails: one new message that carries two save markers; the
    last marker of the batch declares /data/b.csv, the returned pointer is
    /data/a.csv. *)
Lemma last_marker_not_followed :
  exists upd,
    run_specialist
      (appending_agent
         [AIMessage "saved to: /data/a.csv and saved to: /data/b.csv"])
      "cleaning_agent"
      (mkState [HumanMessage "clean"] None (Some "/data/raw.csv"))
    = Some upd /\
    last_of (batch_markers (upd_messages upd)) = Some "/data/b.csv" /\
    upd_df_path upd = "/data/a.csv" /\
    Some (upd_df_path upd) <> last_of (batch_markers (upd_messages upd)).
Proof.
  eexists. split; [reflexivity|].
  split; [reflexivity|]. split; [reflexivity|].
  vm_compute. discriminate.
Qed.

(** C5, the code at the failing input: a new message whose marker is
    written "Saved to:" passes the test on the lowered text, the pattern
    then finds nothing in the text itself, and the pointer stays the one of
    the input state. *)
Theorem capitalised_marker_not_recognised :
  contains "saved to:" (lower "Saved to: /data/x_cleaned.csv") = true /\
  re_search_saved "Saved to: /data/x_cleaned.csv" = None /\
  re_search_saved "saved to: /data/x_cleaned.csv"
  = Some "/data/x_cleaned.csv" /\
  run_specialist
    (appending_agent [ToolMessage "Saved to: /data/x_cleaned.csv"])
    "cleaning_agent"
    (mkState [HumanMessage "clean"] None (Some "/data/x.csv"))
  = Some (mkUpdate [ToolMessage "Saved to: /data/x_cleaned.csv"]
            "/data/x.csv").
Proof. repeat split; reflexivity. Qed.

End Bridge.

(** ** Output paths of the tools *)

Module Paths.
Import PyStr StrFacts.

Lemma take_app (a b : string) : take (String.length a) (a ++ b) = a.
Proof. induction a as [|c a IH]; simpl; [now destruct b | now rewrite IH]. Qed.

Lemma drop_app (a b : string) : drop (String.length a) (a ++ b) = b.
Proof. induction a as [|c a IH]; simpl; [reflexivity | exact IH]. Qed.

Lemma take_drop (n : nat) (s : string) : take n s ++ drop n s = s.
Proof.
  revert s. induction n as [|n IH]; intros [|c s]; simpl; try reflexivity.
  now rewrite IH.
Qed.

Lemma endswith_unfold (suf s : string) :
  endswith suf s =
    (s =? suf) ||
    match s with
    | EmptyString => false
    | String _ s' => endswith suf s'
    end.
Proof. destruct s; reflexivity. Qed.

Lemma endswith_app (a suf : string) : endswith suf (a ++ suf) = true.
Proof.
  induction a as [|c a IH].
  - change ("" ++ suf) with suf. rewrite endswith_unfold.
    now rewrite String.eqb_refl.
  - change (String c a ++ suf) with (String c (a ++ suf)).
    rewrite endswith_unfold, IH. apply orb_true_r.
Qed.

Lemma endswith_inv (suf s : string) :
  endswith suf s = true -> exists a, s = a ++ suf.
Proof.
  induction s as [|c s IH]; rewrite endswith_unfold; intros H.
  - rewrite orb_false_r in H. apply String.eqb_eq in H. now exists "".
  - apply orb_true_iff in H as [H|H].
    + apply String.eqb_eq in H. now exists "".
    + destruct (IH H) as [a ->]. now exists (String c a).
Qed.

Lemma rfind_from_app (c : ascii) (a b : string) (i acc : Z) :
  rfind_from c (a ++ b) i acc
  = rfind_from c b (i + Z.of_nat (String.length a)) (rfind_from c a i acc).
Proof.
  revert i acc. induction a as [|x a IH]; intros i acc.
  - simpl. now rewrite Z.add_0_r.
  - cbn [append rfind_from String.length]. rewrite IH. f_equal. lia.
Qed.

Lemma rfind_from_range (c : ascii) (s : string) (i acc : Z) :
  rfind_from c s i acc = acc \/
  (i <= rfind_from c s i acc < i + Z.of_nat (String.length s))%Z.
Proof.
  revert i acc. induction s as [|x s IH]; intros i acc.
  - now left.
  - cbn [rfind_from String.length].
    destruct (IH (i + 1)%Z (if Ascii.eqb x c then i else acc)) as [E|R].
    + rewrite E. destruct (Ascii.eqb x c); [right; lia | now left].
    + right. lia.
Qed.

Lemma rfind_range (c : ascii) (s : string) :
  (-1 <= rfind c s < Z.of_nat (String.length s))%Z.
Proof.
  unfold rfind. destruct (rfind_from_range c s 0 (-1)) as [->|R]; lia.
Qed.

(** What [rfind] finds is the character it looks for. *)
Lemma rfind_from_found (c : ascii) (s : string) (i acc : Z) :
  rfind_from c s i acc <> acc ->
  exists rest,
    drop (Z.to_nat (rfind_from c s i acc - i)) s = String c rest.
Proof.
  revert i acc. induction s as [|x s IH]; intros i acc H.
  - now contradiction H.
  - cbn [rfind_from] in *.
    destruct (rfind_from_range c s (i + 1) (if Ascii.eqb x c then i else acc))
      as [E|R].
    + rewrite E in *. destruct (Ascii.eqb x c) eqn:X; [|now contradiction H].
      apply Ascii.eqb_eq in X. subst x.
      rewrite Z.sub_diag. now exists s.
    + destruct (IH (i + 1)%Z (if Ascii.eqb x c then i else acc)) as [rest Hr].
      { destruct (Ascii.eqb x c); lia. }
      exists rest.
      replace (Z.to_nat (rfind_from c s (i + 1)
                           (if Ascii.eqb x c then i else acc) - i))
        with (S (Z.to_nat (rfind_from c s (i + 1)
                             (if Ascii.eqb x c then i else acc) - (i + 1))))
        by lia.
      exact Hr.
Qed.

(** The loop of [_splitext] splits as soon as it meets a character that is
    not a dot. *)
Lemma splitext_loop_splits (p : string) (d f : Z) (n : nat) (j : Z) :
  (f <= j < f + Z.of_nat n)%Z ->
  (slice1 p j =? String extsep "") = false ->
  splitext_loop p d f n = Some (take (Z.to_nat d) p, drop (Z.to_nat d) p).
Proof.
  revert f. induction n as [|n IH]; intros f Hj Hne; [lia|].
  cbn [splitext_loop].
  destruct (slice1 p f =? String extsep "") eqn:E; [|reflexivity].
  cbn [negb]. apply IH; [|exact Hne].
  assert (j <> f) by (intros ->; congruence). lia.
Qed.

Lemma splitext_loop_result (p : string) (d f : Z) (n : nat) (r : string * string) :
  splitext_loop p d f n = Some r ->
  r = (take (Z.to_nat d) p, drop (Z.to_nat d) p).
Proof.
  revert f. induction n as [|n IH]; intros f; cbn [splitext_loop];
    [discriminate|].
  destruct (negb (slice1 p f =? String extsep "")); [congruence | apply IH].
Qed.

(** The two parts of [splitext] put together give the path, and the
    extension is empty or starts with a dot. *)
Lemma splitext_join (fl : os_flavour) (p base ext : string) :
  splitext fl p = (base, ext) ->
  p = base ++ ext /\ (ext = "" \/ exists e, ext = String extsep e).
Proof.
  unfold splitext, _splitext.
  set (si := match os_altsep fl with
             | Some a => Z.max (rfind (os_sep fl) p) (rfind a p)
             | None => rfind (os_sep fl) p
             end).
  assert (Hsi : (-1 <= si)%Z).
  { subst si. pose proof (rfind_range (os_sep fl) p).
    destruct (os_altsep fl); lia. }
  destruct (rfind extsep p >? si)%Z eqn:G.
  - destruct (splitext_loop _ _ _ _) as [r|] eqn:L.
    + apply splitext_loop_result in L. subst r. intros E.
      injection E as <- <-. split; [now rewrite take_drop|].
      right.
      destruct (rfind_from_found extsep p 0 (-1)) as [rest Hr].
      { fold (rfind extsep p). lia. }
      rewrite Z.sub_0_r in Hr. fold (rfind extsep p) in Hr.
      now exists rest.
    + intros E. injection E as <- <-. split; [now rewrite append_nil_r | now left].
  - intros E. injection E as <- <-. split; [now rewrite append_nil_r | now left].
Qed.

(** A path that ends in "_cleaned.csv" splits before ".csv". *)
Lemma splitext_cleaned_csv (fl : os_flavour) (x : string) :
  splitext fl (x ++ "_cleaned.csv") = (x ++ "_cleaned", ".csv").
Proof.
  unfold splitext, _splitext.
  assert (Hsep : forall c, In c ["/"%char; "\"%char] ->
             rfind c (x ++ "_cleaned.csv") = rfind c x).
  { intros c Hc. unfold rfind. rewrite rfind_from_app.
    destruct Hc as [<-|[<-|[]]]; reflexivity. }
  assert (Hdot : rfind extsep (x ++ "_cleaned.csv")
                 = (Z.of_nat (String.length x) + 8)%Z).
  { unfold rfind. rewrite rfind_from_app. cbn. lia. }
  set (si := match os_altsep fl with
             | Some a =>
                 Z.max (rfind (os_sep fl) (x ++ "_cleaned.csv"))
                   (rfind a (x ++ "_cleaned.csv"))
             | None => rfind (os_sep fl) (x ++ "_cleaned.csv")
             end).
  assert (Hsi : (-1 <= si < Z.of_nat (String.length x))%Z).
  { subst si. destruct fl; cbn [os_altsep os_sep].
    - rewrite Hsep by (simpl; tauto). apply rfind_range.
    - rewrite !Hsep by (simpl; tauto).
      pose proof (rfind_range "\"%char x).
      pose proof (rfind_range "/"%char x). lia. }
  rewrite Hdot.
  replace ((Z.of_nat (String.length x) + 8 >? si)%Z) with true
    by (symmetry; apply Z.gtb_lt; lia).
  rewrite (splitext_loop_splits _ _ _ _ (Z.of_nat (String.length x))).
  - replace (Z.to_nat (Z.of_nat (String.length x) + 8))
      with (String.length (x ++ "_cleaned"))
      by (rewrite length_append; simpl; lia).
    replace (x ++ "_cleaned.csv") with ((x ++ "_cleaned") ++ ".csv")
      by (now rewrite append_assoc).
    now rewrite take_app, drop_app.
  - lia.
  - unfold slice1. rewrite Nat2Z.id, drop_app. reflexivity.
Qed.

Lemma clean_output_path_cleaned (fl : os_flavour) (p : string) :
  endswith "_cleaned.csv" p = true -> clean_output_path fl p = p.
Proof.
  intros H. apply endswith_inv in H as [x ->].
  unfold clean_output_path. rewrite splitext_cleaned_csv.
  now rewrite endswith_app.
Qed.

End Paths.

(** ** The save stages of the tools *)

Module ToolFacts.
Import PyStr StrFacts Paths.

Lemma clean_data_saves {column : Type} (fl : os_flavour)
    (repr : list string -> string) (p : string)
    (drop_columns : option (list string)) (df0 df : DataFrame column)
    (fs : filesystem column) :
  df_empty df0 = false -> df_empty df = false ->
  exists tail,
    clean_data fl repr p drop_columns df0 df fs
    = (to_csv df (clean_output_path fl p) fs,
       "Data cleaning complete. Saved to: " ++ clean_output_path fl p
         ++ "." ++ tail).
Proof.
  intros H0 H. unfold clean_data. rewrite H0, H.
  destruct (truthy drop_columns).
  - eexists. f_equal. rewrite !append_assoc. reflexivity.
  - eexists. f_equal. rewrite !append_assoc. reflexivity.
Qed.

(** C8: on a path that ends in "_cleaned.csv", [clean_data] writes to the
    input path and reports it; on a path whose part before the extension
    does not end in "_cleaned", the output path is the input path with
    "_cleaned" put before the extension. *)
Theorem cleaning_path_idempotent {column : Type} (fl : os_flavour)
    (repr : list string -> string) (p : string)
    (drop_columns : option (list string)) (df0 df : DataFrame column)
    (fs : filesystem column) :
  df_empty df0 = false -> df_empty df = false ->
  exists out tail,
    clean_data fl repr p drop_columns df0 df fs
    = (to_csv df out fs,
       "Data cleaning complete. Saved to: " ++ out ++ "." ++ tail) /\
    (endswith "_cleaned.csv" p = true -> out = p) /\
    (forall base ext,
        splitext fl p = (base, ext) ->
        endswith "_cleaned" base = false ->
        p = base ++ ext /\
        (ext = "" \/ exists e, ext = String extsep e) /\
        out = base ++ "_cleaned" ++ ext).
Proof.
  intros H0 H.
  destruct (clean_data_saves fl repr p drop_columns df0 df fs H0 H)
    as [tail E].
  exists (clean_output_path fl p), tail. split; [exact E|]. split.
  - apply clean_output_path_cleaned.
  - intros base ext S Hb.
    destruct (splitext_join fl p base ext S) as [J X].
    split; [exact J | split; [exact X|]].
    unfold clean_output_path. now rewrite S, Hb.
Qed.

Lemma cleaning_path_idempotent_witness :
  exists out tail,
    clean_data Posix (fun _ => "[]") "data/raw_cleaned.csv" None
      (mkFrame [("a", 1)] 10) (mkFrame [("a", 1)] 10) []
    = (to_csv (mkFrame [("a", 1)] 10) out [],
       "Data cleaning complete. Saved to: " ++ out ++ "." ++ tail) /\
    out = "data/raw_cleaned.csv".
Proof.
  destruct (cleaning_path_idempotent Posix (fun _ => "[]")
              "data/raw_cleaned.csv" None
              (mkFrame [("a", 1)] 10) (mkFrame [("a", 1)] 10) []
              eq_refl eq_refl) as (out & tail & E & Hc & _).
  exists out, tail. split; [exact E|]. apply Hc. reflexivity.
Defined.

Example clean_raw : clean_output_path Posix "data/raw.csv"
                    = "data/raw_cleaned.csv".
Proof. reflexivity. Qed.

Lemma replace_from_cons (old new : string) (c : ascii) (s : string) :
  replace_from old new (String c s) 0 =
    if prefix old (String c s)
    then new ++ replace_from old new s (String.length old - 1)
    else String c (replace_from old new s 0).
Proof. reflexivity. Qed.

Lemma count_cons (p : string) (c : ascii) (s : string) :
  count p (String c s)
  = (if prefix p (String c s) then 1 else 0) + count p s.
Proof. reflexivity. Qed.

Lemma count_app_pos (p a : string) : 1 <= count p (a ++ p).
Proof.
  induction a as [|c a IH].
  - change ("" ++ p) with p. destruct p as [|x p].
    + simpl. lia.
    + rewrite count_cons.
      pose proof (prefix_app (String x p) "") as P.
      rewrite append_nil_r in P. rewrite P. lia.
  - change (String c a ++ p) with (String c (a ++ p)).
    rewrite count_cons. lia.
Qed.

(** With ".csv" at the end of the path and nowhere else, [replace] puts
    the new ending in its place. *)
Lemma replace_single_csv (new base : string) :
  count ".csv" (base ++ ".csv") = 1 ->
  replace ".csv" new (base ++ ".csv") = base ++ new.
Proof.
  unfold replace. induction base as [|c base IH]; intros H.
  - simpl. apply append_nil_r.
  - change (String c base ++ ".csv") with (String c (base ++ ".csv")) in *.
    rewrite count_cons in H. pose proof (count_app_pos ".csv" base) as P.
    rewrite replace_from_cons.
    destruct (prefix ".csv" (String c (base ++ ".csv"))); [lia|].
    rewrite IH by lia. reflexivity.
Qed.

Lemma assign_fresh {column : Type} (name : string) (v : column)
    (cols : list (string * column)) :
  ~ In name (map fst cols) -> assign name v cols = (cols ++ [(name, v)])%list.
Proof.
  induction cols as [|[n w] cols IH]; intros H; [reflexivity|].
  simpl in *. destruct (n =? name) eqn:E.
  - apply String.eqb_eq in E. tauto.
  - rewrite IH by tauto. reflexivity.
Qed.

(** C9, amended: on a path that ends in ".csv" and holds ".csv" nowhere
    else, [perform_clustering] writes to the path with "_clustered" put
    before ".csv" and reports that path; the frame written has the rows of
    the input and, when the input has no column named Cluster, PCA1 or
    PCA2, its columns followed by these three. *)
Theorem clustering_output_csv {column : Type} (base : string)
    (df : DataFrame column) (clusters pca1 pca2 : column)
    (fs : filesystem column) :
  count ".csv" (base ++ ".csv") = 1 ->
  exists written,
    perform_clustering (base ++ ".csv") df clusters pca1 pca2 fs
    = (to_csv written (base ++ "_clustered.csv") fs,
       "Clustering complete. Results saved to: "
         ++ (base ++ "_clustered.csv")
         ++ ". PCA components (PCA1, PCA2) and 'Cluster' labels added.") /\
    read_file
      (fst (perform_clustering (base ++ ".csv") df clusters pca1 pca2 fs))
      (base ++ "_clustered.csv") = Some written /\
    df_rows written = df_rows df /\
    ((forall n, In n ["Cluster"; "PCA1"; "PCA2"] ->
                ~ In n (column_names df)) ->
     df_columns written
     = (df_columns df
          ++ [("Cluster", clusters); ("PCA1", pca1); ("PCA2", pca2)])%list).
Proof.
  intros H. unfold perform_clustering, cluster_output_path.
  rewrite (replace_single_csv "_clustered.csv" base H).
  eexists. split; [reflexivity|]. split; [|split].
  - cbn [fst to_csv read_file]. now rewrite String.eqb_refl.
  - reflexivity.
  - intros F. unfold set_column, column_names in *. cbn [df_columns].
    rewrite (assign_fresh "Cluster") by (apply F; simpl; tauto).
    rewrite (assign_fresh "PCA1").
    2:{ rewrite map_app, in_app_iff. simpl.
        intros [X|[X|[]]]; [|discriminate].
        revert X. apply F. simpl; tauto. }
    rewrite (assign_fresh "PCA2").
    2:{ rewrite !map_app, !in_app_iff. simpl.
        intros [[X|[X|[]]]|[X|[]]]; try discriminate.
        revert X. apply F. simpl; tauto. }
    rewrite <- !List.app_assoc. reflexivity.
Qed.

Lemma clustering_output_csv_witness :
  exists written,
    perform_clustering "data/raw.csv" (mkFrame [("a", 1)] 10) 2 3 4 []
    = (to_csv written "data/raw_clustered.csv" [],
       "Clustering complete. Results saved to: data/raw_clustered.csv. PCA components (PCA1, PCA2) and 'Cluster' labels added.")
    /\ df_columns written
       = [("a", 1); ("Cluster", 2); ("PCA1", 3); ("PCA2", 4)].
Proof.
  destruct (clustering_output_csv "data/raw" (mkFrame [("a", 1)] 10) 2 3 4 []
              eq_refl) as (written & E & _ & _ & C).
  exists written. split; [exact E|].
  apply C. simpl. intros n [<-|[<-|[<-|[]]]] [X|[]]; discriminate.
Defined.

(** C9 as stated fails: a path with another extension is written back
    unchanged, without "_clustered"; a directory name that holds ".csv"
    gets the suffix too; and a column Cluster that the input already has is
    overwritten where it stands, not appended. *)
Lemma clustering_path_not_generic :
  splitext Posix "data/raw.tsv" = ("data/raw", ".tsv") /\
  cluster_output_path "data/raw.tsv" = "data/raw.tsv" /\
  cluster_output_path "data/raw.tsv" <> "data/raw_clustered.tsv" /\
  cluster_output_path "runs.csv/raw.csv"
  = "runs_clustered.csv/raw_clustered.csv" /\
  fst (perform_clustering "data/raw.tsv"
         (mkFrame [("Cluster", 0); ("a", 1)] 10) 2 3 4 [])
  = [("data/raw.tsv",
      mkFrame [("Cluster", 2); ("a", 1); ("PCA1", 3); ("PCA2", 4)] 10)].
Proof.
  split; [reflexivity|]. split; [reflexivity|].
  split; [vm_compute; discriminate|]. split; reflexivity.
Qed.

(** C6, the code at the failing input: the text that [clean_data] returns
    after it saved data/raw_cleaned.csv writes the phrase "Saved to: ";
    "saved to: " does not occur in it and the bridge finds no save marker
    in it, while the text of [perform_clustering] has the phrase and its
    marker is found. *)
Theorem clean_data_marker_capitalised (repr : list string -> string) :
  snd (clean_data Posix repr "data/raw.csv" None
         (mkFrame [("a", 1)] 10) (mkFrame [("a", 1)] 10) [])
  = "Data cleaning complete. Saved to: data/raw_cleaned.csv. Handled nulls, validated types, and sanitized 10 rows."
  /\ contains "saved to: "
       (snd (clean_data Posix repr "data/raw.csv" None
               (mkFrame [("a", 1)] 10) (mkFrame [("a", 1)] 10) []))
     = false
  /\ marker_path
       (ToolMessage
          (snd (clean_data Posix repr "data/raw.csv" None
                  (mkFrame [("a", 1)] 10) (mkFrame [("a", 1)] 10) [])))
     = None
  /\ contains "saved to: data/raw_clustered.csv"
       (snd (perform_clustering "data/raw.csv" (mkFrame [("a", 1)] 10)
               2 3 4 []))
     = true
  /\ marker_path
       (ToolMessage
          (snd (perform_clustering "data/raw.csv" (mkFrame [("a", 1)] 10)
                  2 3 4 [])))
     = Some "data/raw_clustered.csv".
Proof. repeat split; reflexivity. Qed.

End ToolFacts.

(** ** More on the output paths *)

Module PathAlgebra.
Import PyStr StrFacts Paths.

Lemma rfind_from_shift (c : ascii) (s : string) (i acc : Z) :
  rfind_from c s i acc
  = if (rfind c s =? -1)%Z then acc else (i + rfind c s)%Z.
Proof.
  unfold rfind. revert i acc. induction s as [|x s IH]; intros i acc.
  - reflexivity.
  - cbn [rfind_from]. rewrite (IH (i + 1)%Z), (IH (0 + 1)%Z).
    pose proof (rfind_range c s) as R. unfold rfind in R.
    destruct (rfind_from c s 0 (-1) =? -1)%Z eqn:E.
    + destruct (Ascii.eqb x c); cbn; [f_equal; lia | reflexivity].
    + apply Z.eqb_neq in E.
      replace ((0 + 1 + rfind_from c s 0 (-1) =? -1)%Z) with false
        by (symmetry; apply Z.eqb_neq; lia).
      lia.
Qed.

Lemma rfind_app (c : ascii) (a b : string) :
  rfind c (a ++ b)
  = if (rfind c b =? -1)%Z then rfind c a
    else (Z.of_nat (String.length a) + rfind c b)%Z.
Proof.
  unfold rfind at 1. rewrite rfind_from_app, rfind_from_shift.
  reflexivity.
Qed.

Lemma length_take (n : nat) (s : string) :
  n <= String.length s -> String.length (take n s) = n.
Proof.
  revert s. induction n as [|n IH]; intros [|c s] H; simpl in *;
    try reflexivity; try lia.
  rewrite IH; lia.
Qed.

Lemma drop_app_le (n : nat) (a x : string) :
  n <= String.length a -> drop n (a ++ x) = drop n a ++ x.
Proof.
  revert a. induction n as [|n IH]; intros [|c a] H; simpl in *;
    try reflexivity; try lia.
  apply IH. lia.
Qed.

Lemma drop_nonempty (n : nat) (a : string) :
  n < String.length a -> exists c r, drop n a = String c r.
Proof.
  revert a. induction n as [|n IH]; intros [|c a] H; simpl in *; try lia.
  - now exists c, a.
  - apply IH. lia.
Qed.

(** A character inside the first part is the same whatever follows. *)
Lemma slice1_app (a x : string) (j : Z) :
  (0 <= j < Z.of_nat (String.length a))%Z ->
  slice1 (a ++ x) j = slice1 a j.
Proof.
  intros H. unfold slice1. rewrite drop_app_le by lia.
  destruct (drop_nonempty (Z.to_nat j) a) as (c & r & ->); [lia|].
  reflexivity.
Qed.

Lemma splitext_loop_none (p : string) (d f : Z) (n : nat) :
  splitext_loop p d f n = None <->
  forall j, (f <= j < f + Z.of_nat n)%Z ->
            (slice1 p j =? String extsep "") = true.
Proof.
  revert f. induction n as [|n IH]; intros f; cbn [splitext_loop].
  - split; [intros _ j Hj; lia | reflexivity].
  - destruct (slice1 p f =? String extsep "") eqn:E; cbn [negb].
    + rewrite IH. split; intros H j Hj.
      * destruct (Z.eq_dec j f) as [->|Hne]; [exact E | apply H; lia].
      * apply H. lia.
    + split; [discriminate|]. intros H.
      rewrite H in E by lia. discriminate.
Qed.

(** The loop looks at the characters before [d] only. *)
Lemma splitext_loop_same (p p' : string) (d d' f : Z) (n n' : nat) :
  (forall j, (f <= j < f + Z.of_nat n)%Z -> slice1 p' j = slice1 p j) ->
  n <= n' ->
  splitext_loop p d f n <> None -> splitext_loop p' d' f n' <> None.
Proof.
  intros Hs Hn H N. apply H. apply splitext_loop_none.
  intros j Hj. rewrite <- Hs by exact Hj.
  apply (proj1 (splitext_loop_none p' d' f n') N). lia.
Qed.

Lemma splitext_unfold (fl : os_flavour) (p : string) :
  splitext fl p =
    if (rfind extsep p >? sep_index fl p)%Z then
      match splitext_loop p (rfind extsep p) (sep_index fl p + 1)
              (Z.to_nat (rfind extsep p - (sep_index fl p + 1))) with
      | Some r => r
      | None => (p, EmptyString)
      end
    else (p, EmptyString).
Proof. reflexivity. Qed.

Lemma sep_index_range (fl : os_flavour) (p : string) :
  (-1 <= sep_index fl p < Z.of_nat (String.length p))%Z.
Proof.
  unfold sep_index. pose proof (rfind_range (os_sep fl) p).
  destruct (os_altsep fl) as [a|]; [|assumption].
  pose proof (rfind_range a p). lia.
Qed.

(** What is put after a path without any separator in it leaves the index of
    the last separator where it was. *)
Lemma sep_index_app (fl : os_flavour) (a b : string) :
  rfind "/"%char b = (-1)%Z -> rfind "\"%char b = (-1)%Z ->
  sep_index fl (a ++ b) = sep_index fl a.
Proof.
  intros H1 H2. unfold sep_index.
  destruct fl; cbn [os_altsep os_sep]; rewrite !rfind_app, ?H1, ?H2;
    reflexivity.
Qed.

(** Conversely: when the last separator of [a ++ b] lies in [a], there is
    none in [b]. *)
Lemma sep_index_before (fl : os_flavour) (a b : string) :
  (sep_index fl (a ++ b) < Z.of_nat (String.length a))%Z ->
  sep_index fl (a ++ b) = sep_index fl a /\
  forall x, sep_index fl (a ++ x ++ b) = sep_index fl (a ++ x).
Proof.
  unfold sep_index. intros H.
  destruct fl; cbn [os_altsep os_sep] in *.
  - rewrite rfind_app in H. pose proof (rfind_range "/"%char b) as R.
    destruct (rfind "/"%char b =? -1)%Z eqn:E; [|lia].
    split; [now rewrite rfind_app, E|].
    intros x. rewrite <- append_assoc, rfind_app, E.
    reflexivity.
  - rewrite !rfind_app in H.
    pose proof (rfind_range "\"%char b) as R1.
    pose proof (rfind_range "/"%char b) as R2.
    pose proof (rfind_range "\"%char a) as R3.
    pose proof (rfind_range "/"%char a) as R4.
    destruct (rfind "\"%char b =? -1)%Z eqn:E1; [|lia].
    destruct (rfind "/"%char b =? -1)%Z eqn:E2; [|lia].
    split; [now rewrite !rfind_app, E1, E2|].
    intros x. rewrite <- append_assoc, !rfind_app, E1, E2.
    reflexivity.
Qed.

Lemma rfind_head (c : ascii) (e : string) :
  (0 <= rfind c (String c e))%Z.
Proof.
  unfold rfind. cbn [rfind_from]. rewrite Ascii.eqb_refl, rfind_from_shift.
  pose proof (rfind_range c e). destruct (rfind c e =? -1)%Z; lia.
Qed.

(** The suffix "_cleaned" put before the extension of a path stays before
    the extension: the path so made splits there. *)
Lemma splitext_insert (fl : os_flavour) (p base ext : string) :
  splitext fl p = (base, ext) ->
  splitext fl (base ++ "_cleaned" ++ ext) = (base ++ "_cleaned", ext).
Proof.
  intros S. destruct (splitext_join fl p base ext S) as [J X].
  rewrite splitext_unfold in S.
  pose proof (rfind_range extsep p) as Rd.
  pose proof (sep_index_range fl p) as Rs.
  destruct (rfind extsep p >? sep_index fl p)%Z eqn:G.
  - apply Z.gtb_lt in G.
    destruct (splitext_loop p (rfind extsep p) (sep_index fl p + 1)
                (Z.to_nat (rfind extsep p - (sep_index fl p + 1))))
      as [r|] eqn:L.
    + pose proof (splitext_loop_result _ _ _ _ _ L) as Hr.
      rewrite Hr in S. injection S as Hb He.
      assert (Lb : Z.of_nat (String.length base) = rfind extsep p).
      { rewrite <- Hb, length_take; lia. }
      destruct X as [X|[e X]].
      { destruct (drop_nonempty (Z.to_nat (rfind extsep p)) p)
          as (c & tl & D); [lia | congruence]. }
      assert (Re : rfind extsep ext = 0%Z).
      { pose proof (rfind_head extsep e) as R0. rewrite <- X in R0.
        pose proof (rfind_app extsep base ext) as A. rewrite <- J in A.
        destruct (rfind extsep ext =? -1)%Z eqn:E;
          [apply Z.eqb_eq in E; lia | lia]. }
      assert (Sb : (sep_index fl (base ++ ext)
                    < Z.of_nat (String.length base))%Z).
      { rewrite <- J. lia. }
      destruct (sep_index_before fl base ext Sb) as [S1 S2].
      assert (Si : sep_index fl (base ++ "_cleaned" ++ ext)
                   = sep_index fl p).
      { rewrite S2, (sep_index_app fl base "_cleaned") by reflexivity.
        rewrite <- S1. now rewrite <- J. }
      assert (Di : rfind extsep (base ++ "_cleaned" ++ ext)
                   = (rfind extsep p + 8)%Z).
      { rewrite <- append_assoc, rfind_app, Re, length_append. cbn. lia. }
      rewrite splitext_unfold, Si, Di.
      replace ((rfind extsep p + 8 >? sep_index fl p)%Z) with true
        by (symmetry; apply Z.gtb_lt; lia).
      destruct (splitext_loop (base ++ "_cleaned" ++ ext)
                  (rfind extsep p + 8) (sep_index fl p + 1)
                  (Z.to_nat (rfind extsep p + 8 - (sep_index fl p + 1))))
        as [r'|] eqn:L'.
      * apply splitext_loop_result in L'. subst r'.
        replace (Z.to_nat (rfind extsep p + 8))
          with (String.length (base ++ "_cleaned"))
          by (rewrite length_append; simpl; lia).
        rewrite <- append_assoc. now rewrite take_app, drop_app.
      * exfalso. revert L'.
        apply (splitext_loop_same p _ (rfind extsep p) _ _
                 (Z.to_nat (rfind extsep p - (sep_index fl p + 1))));
          [|lia|congruence].
        intros j Hj. rewrite J, !slice1_app by lia. reflexivity.
    + injection S as <- <-.
      change ("_cleaned" ++ "") with "_cleaned".
      rewrite splitext_unfold, (sep_index_app fl p "_cleaned") by reflexivity.
      rewrite (rfind_app extsep p "_cleaned").
      change (rfind extsep "_cleaned" =? -1)%Z with true. cbv iota.
      replace ((rfind extsep p >? sep_index fl p)%Z) with true
        by (symmetry; apply Z.gtb_lt; lia).
      destruct (splitext_loop (p ++ "_cleaned") (rfind extsep p)
                  (sep_index fl p + 1)
                  (Z.to_nat (rfind extsep p - (sep_index fl p + 1))))
        as [r'|] eqn:L'; [|reflexivity].
      exfalso. revert L'. intros L'.
      assert (N : splitext_loop (p ++ "_cleaned") (rfind extsep p)
                    (sep_index fl p + 1)
                    (Z.to_nat (rfind extsep p - (sep_index fl p + 1)))
                  = None).
      { apply splitext_loop_none. intros j Hj.
        rewrite slice1_app by lia.
        apply (proj1 (splitext_loop_none _ _ _ _) L j Hj). }
      congruence.
  - injection S as <- <-.
    change ("_cleaned" ++ "") with "_cleaned".
    rewrite splitext_unfold, (sep_index_app fl p "_cleaned") by reflexivity.
    rewrite (rfind_app extsep p "_cleaned").
    change (rfind extsep "_cleaned" =? -1)%Z with true. cbv iota.
    now rewrite G.
Qed.

(** X1: cleaning a path that cleaning produced gives that path again,
    whatever the path and the flavour of [os.path]. *)
Theorem clean_output_path_idempotent (fl : os_flavour) (p : string) :
  clean_output_path fl (clean_output_path fl p) = clean_output_path fl p.
Proof.
  unfold clean_output_path at 2 3.
  destruct (splitext fl p) as [base ext] eqn:S.
  destruct (endswith "_cleaned" base) eqn:E.
  - unfold clean_output_path. now rewrite S, E.
  - unfold clean_output_path.
    rewrite (splitext_insert fl p base ext S), endswith_app.
    reflexivity.
Qed.

(** X2: the output path of cleaning always splits into a part that ends in
    "_cleaned" and the extension of the input path; so "_cleaned" occurs in
    it. *)
Theorem clean_output_path_marked (fl : os_flavour) (p : string) :
  endswith "_cleaned" (fst (splitext fl (clean_output_path fl p))) = true /\
  snd (splitext fl (clean_output_path fl p)) = snd (splitext fl p) /\
  contains "_cleaned" (clean_output_path fl p) = true.
Proof.
  unfold clean_output_path.
  destruct (splitext fl p) as [base ext] eqn:S.
  destruct (splitext_join fl p base ext S) as [J _].
  destruct (endswith "_cleaned" base) eqn:E.
  - rewrite S. cbn [fst snd]. split; [exact E | split; [reflexivity|]].
    apply endswith_inv in E as [a ->]. rewrite J, append_assoc.
    apply contains_intro.
  - rewrite (splitext_insert fl p base ext S). cbn [fst snd].
    split; [apply endswith_app | split; [reflexivity|]].
    apply contains_intro.
Qed.

End PathAlgebra.

(** ** The output path of clustering *)

Module ClusterPaths.
Import PyStr StrFacts Paths ToolFacts.

Lemma prefix_nil (s : string) : prefix "" s = true.
Proof. now destruct s. Qed.

Lemma replace_absent (old new s : string) :
  contains old s = false -> replace old new s = s.
Proof.
  unfold replace. induction s as [|c s IH]; intros H; [reflexivity|].
  rewrite contains_cons in H. apply orb_false_iff in H as [P C].
  rewrite replace_from_cons, P, IH by exact C. reflexivity.
Qed.

Lemma replace_present (old new s : string) (c : ascii) (o : string) :
  old = String c o ->
  contains old s = true -> contains new (replace old new s) = true.
Proof.
  intros -> . unfold replace. induction s as [|x s IH]; intros H.
  - rewrite contains_nil in H. discriminate.
  - rewrite contains_cons in H. rewrite replace_from_cons.
    destruct (prefix (String c o) (String x s)) eqn:P.
    + apply (contains_intro new "").
    + rewrite contains_cons, IH by exact H. apply orb_true_r.
Qed.

Lemma assign_keeps {column : Type} (n m : string) (w : column)
    (cols : list (string * column)) :
  In n (map fst cols) -> In n (map fst (assign m w cols)).
Proof.
  induction cols as [|[k u] cols IH]; simpl.
  - tauto.
  - destruct (k =? m); simpl; tauto.
Qed.

Lemma assign_has {column : Type} (m : string) (w : column)
    (cols : list (string * column)) :
  In m (map fst (assign m w cols)).
Proof.
  induction cols as [|[k u] cols IH]; simpl.
  - now left.
  - destruct (k =? m) eqn:E; simpl.
    + apply String.eqb_eq in E. now left.
    + now right.
Qed.

(** X3: on a path without ".csv" the output path of clustering is the input
    path: [perform_clustering] writes its result over the file it read. *)
Theorem clustering_overwrites_non_csv {column : Type} (file_path : string)
    (df : DataFrame column) (clusters pca1 pca2 : column)
    (fs : filesystem column) :
  contains ".csv" file_path = false ->
  cluster_output_path file_path = file_path /\
  exists written,
    fst (perform_clustering file_path df clusters pca1 pca2 fs)
    = (file_path, written) :: fs /\
    read_file (fst (perform_clustering file_path df clusters pca1 pca2 fs))
      file_path = Some written /\
    mem "Cluster" (column_names written) = true.
Proof.
  intros H. unfold perform_clustering, cluster_output_path.
  rewrite (replace_absent _ _ _ H). split; [reflexivity|].
  eexists. split; [reflexivity|]. split.
  - cbn [fst to_csv read_file]. now rewrite String.eqb_refl.
  - unfold column_names, set_column, mem. cbn [df_columns].
    apply existsb_exists. exists "Cluster". split; [|reflexivity].
    apply assign_keeps, assign_keeps, assign_has.
Qed.

Lemma clustering_overwrites_non_csv_witness :
  cluster_output_path "data/raw.tsv" = "data/raw.tsv" /\
  exists written,
    fst (perform_clustering "data/raw.tsv" (mkFrame [("a", 1)] 10) 2 3 4 [])
    = [("data/raw.tsv", written)] /\
    read_file
      (fst (perform_clustering "data/raw.tsv" (mkFrame [("a", 1)] 10)
              2 3 4 []))
      "data/raw.tsv" = Some written /\
    mem "Cluster" (column_names written) = true.
Proof.
  apply (clustering_overwrites_non_csv "data/raw.tsv" (mkFrame [("a", 1)] 10)
           2 3 4 []).
  reflexivity.
Defined.

(** X4: on a path with ".csv" in it the output path of clustering has
    "_clustered.csv" in it, which is what the application tests before it
    shows the cluster view. *)
Theorem clustered_path_shows_view (file_path : string) :
  contains ".csv" file_path = true ->
  contains "_clustered.csv" (cluster_output_path file_path) = true /\
  shows_cluster_view (Some (cluster_output_path file_path)) = true.
Proof.
  intros H. unfold cluster_output_path.
  pose proof (replace_present ".csv" "_clustered.csv" file_path "." "csv"
                eq_refl H) as C.
  split; [exact C|]. unfold shows_cluster_view. rewrite C, andb_true_r.
  destruct (replace ".csv" "_clustered.csv" file_path); [discriminate|].
  reflexivity.
Qed.

Lemma clustered_path_shows_view_witness :
  contains "_clustered.csv" (cluster_output_path "data/raw.csv") = true /\
  shows_cluster_view (Some (cluster_output_path "data/raw.csv")) = true.
Proof.
  apply (clustered_path_shows_view "data/raw.csv"). reflexivity.
Defined.

Lemma prefix_csv_tail (c : ascii) (b : string) :
  prefix ".csv" (String c (b ++ "_clustered.csv"))
  = prefix ".csv" (String c (b ++ ".csv")).
Proof.
  destruct b as [|b1 [|b2 [|b3 b]]]; cbn [append];
    rewrite !prefix_cons, ?prefix_nil; cbn; reflexivity.
Qed.

Lemma count_clustered (b : string) :
  count ".csv" (b ++ "_clustered.csv") = count ".csv" (b ++ ".csv").
Proof.
  induction b as [|c b IH]; [reflexivity|].
  cbn [append]. now rewrite !count_cons, prefix_csv_tail, IH.
Qed.

(** X5: clustering is not idempotent on paths: on the output path of a
    clustering the suffix is put a second time. *)
Theorem reclustering_chains_suffix (base : string) :
  count ".csv" (base ++ ".csv") = 1 ->
  cluster_output_path (base ++ ".csv") = base ++ "_clustered.csv" /\
  cluster_output_path (cluster_output_path (base ++ ".csv"))
  = base ++ "_clustered_clustered.csv".
Proof.
  intros H. unfold cluster_output_path.
  rewrite (replace_single_csv "_clustered.csv" base H).
  split; [reflexivity|].
  replace (base ++ "_clustered.csv") with ((base ++ "_clustered") ++ ".csv")
    by (now rewrite append_assoc).
  rewrite replace_single_csv.
  - now rewrite append_assoc.
  - rewrite append_assoc. change ("_clustered" ++ ".csv") with "_clustered.csv".
    now rewrite count_clustered.
Qed.

Lemma reclustering_chains_suffix_witness :
  cluster_output_path "data/raw.csv" = "data/raw_clustered.csv" /\
  cluster_output_path (cluster_output_path "data/raw.csv")
  = "data/raw_clustered_clustered.csv".
Proof.
  apply (reclustering_chains_suffix "data/raw"). reflexivity.
Defined.

End ClusterPaths.

(** ** Tools and bridge together *)

Module Pipeline.
Import PyStr StrFacts Paths ToolFacts Bridge ClusterPaths.



Lemma contains_char_app (c : ascii) (a b : string) :
  contains (String c "") (a ++ b)
  = contains (String c "") a || contains (String c "") b.
Proof.
  induction a as [|x a IH].
  - reflexivity.
  - cbn [append]. rewrite !contains_cons, IH, !prefix_cons, !prefix_nil.
    now rewrite orb_assoc.
Qed.

Lemma prefix_window (p s rest : string) :
  String.length p <= String.length s -> prefix p (s ++ rest) = prefix p s.
Proof.
  revert s. induction p as [|a p IH]; intros s H.
  - now rewrite !prefix_nil.
  - destruct s as [|b s]; [simpl in H; lia|].
    cbn [append]. rewrite !prefix_cons, IH; [reflexivity|].
    simpl in H. lia.
Qed.

Lemma lazy_csv_unfold (s : string) :
  lazy_csv s =
    if prefix ".csv" s then Some ".csv"
    else
      match s with
      | EmptyString => None
      | String c s' =>
          if Ascii.eqb c newline then None
          else option_map (String c) (lazy_csv s')
      end.
Proof. destruct s; reflexivity. Qed.

(** The group takes a path without newline up to its ".csv" when there is no
    ".csv" before. *)
Lemma lazy_csv_complete (q rest : string) :
  contains nl q = false ->
  count ".csv" (q ++ ".csv") = 1 ->
  lazy_csv ((q ++ ".csv") ++ rest) = Some (q ++ ".csv").
Proof.
  induction q as [|c q IH]; intros N C.
  - rewrite lazy_csv_unfold. change ("" ++ ".csv") with ".csv".
    now rewrite prefix_app.
  - cbn [append] in *. rewrite count_cons in C.
    pose proof (count_app_pos ".csv" q) as P.
    unfold nl in N. rewrite contains_cons, prefix_cons, prefix_nil in N.
    apply orb_false_iff in N as [Nc Nq]. rewrite andb_true_r in Nc.
    rewrite lazy_csv_unfold.
    change (String c ((q ++ ".csv") ++ rest))
      with (String c (q ++ ".csv") ++ rest).
    rewrite prefix_window by (simpl; rewrite length_append; simpl; lia).
    destruct (prefix ".csv" (String c (q ++ ".csv"))); [lia|].
    cbn [append]. rewrite Ascii.eqb_sym, Nc.
    rewrite IH; [reflexivity | exact Nq | lia].
Qed.

Lemma re_search_skip (c : ascii) (s : string) :
  match_saved_at (String c s) = None ->
  re_search_saved (String c s) = re_search_saved s.
Proof. intros H. rewrite re_search_unfold. now rewrite H. Qed.

Lemma lstrip_length (s : string) :
  String.length (lstrip s) <= String.length s.
Proof.
  induction s as [|c s IH]; simpl; [lia|].
  destruct (is_space c); simpl; lia.
Qed.

Lemma lstrip_fixed_app (q r : string) :
  lstrip q = q -> lstrip r = r -> lstrip (q ++ r) = q ++ r.
Proof.
  destruct q as [|c q]; intros Hq Hr; [exact Hr|].
  simpl in *. destruct (is_space c); [|reflexivity].
  pose proof (lstrip_length q) as L. rewrite Hq in L. simpl in L. lia.
Qed.

Lemma strip_csv_path (q : string) :
  lstrip q = q -> strip (q ++ "_clustered.csv") = q ++ "_clustered.csv".
Proof.
  intros H. unfold strip. rewrite (lstrip_fixed_app q) by easy.
  replace (q ++ "_clustered.csv") with ((q ++ "_clustered") ++ ".csv")
    by (now rewrite append_assoc).
  rewrite rstrip_app; [reflexivity | discriminate].
Qed.

Lemma match_saved_at_intro (x : string) :
  match_saved_at ("saved to: " ++ x) = lazy_csv x.
Proof. unfold match_saved_at. now rewrite prefix_app. Qed.

(** The save marker in the text of [perform_clustering] is found, and it
    declares the output path. *)
Lemma clustering_text_marker {column : Type} (base : string)
    (df : DataFrame column) (clusters pca1 pca2 : column)
    (fs : filesystem column) :
  count ".csv" (base ++ ".csv") = 1 ->
  contains nl base = false ->
  lstrip base = base ->
  marker_path
    (ToolMessage
       (snd (perform_clustering (base ++ ".csv") df clusters pca1 pca2 fs)))
  = Some (base ++ "_clustered.csv").
Proof.
  intros C N L. unfold perform_clustering, cluster_output_path.
  rewrite (replace_single_csv "_clustered.csv" base C).
  cbn [snd]. unfold marker_path, ToolMessage. cbn [content].
  cbn [append].
  repeat (rewrite re_search_skip by reflexivity).
  rewrite re_search_unfold.
  change (String "s" (String "a" (String "v" (String "e" (String "d"
            (String " " (String "t" (String "o" (String ":" (String " "
              ((base ++ "_clustered.csv") ++
               ". PCA components (PCA1, PCA2) and 'Cluster' labels added.")))))))))))
    with ("saved to: " ++
          ((base ++ "_clustered.csv") ++
           ". PCA components (PCA1, PCA2) and 'Cluster' labels added.")).
  rewrite match_saved_at_intro.
  replace (base ++ "_clustered.csv") with ((base ++ "_clustered") ++ ".csv")
    by (now rewrite append_assoc).
  rewrite lazy_csv_complete.
  - cbn [option_map]. rewrite append_assoc.
    change ("_clustered" ++ ".csv") with "_clustered.csv".
    now rewrite strip_csv_path.
  - unfold nl. rewrite contains_char_app. fold nl. rewrite N. reflexivity.
  - rewrite append_assoc. change ("_clustered" ++ ".csv") with "_clustered.csv".
    now rewrite count_clustered.
Qed.

Lemma run_specialist_appending (delta : list message) (name : string)
    (state : AgentState) :
  run_specialist (appending_agent delta) name state
  = Some (mkUpdate delta
            (scan_saved (rev delta) (get_or (df_path state) ""))).
Proof.
  rewrite (run_specialist_returns _ name state
             (messages (local_state state) ++ delta)%list eq_refl).
  replace (List.length (messages state) + 1)
    with (List.length (messages (local_state state)))
    by (unfold local_state; cbn [messages]; now rewrite List.length_app).
  now rewrite skipn_length_app.
Qed.

(** X6: the path that [perform_clustering] reports reaches the pointer.  For
    a path base.csv without newline, without white space in front and with
    ".csv" at its end only, a specialist whose new messages hold the text
    returned by [perform_clustering], followed by messages without save
    marker, makes [run_specialist] return the clustered path. *)
Theorem clustering_path_reaches_pointer {column : Type} (base : string)
    (df : DataFrame column) (clusters pca1 pca2 : column)
    (fs : filesystem column) (name : string) (state : AgentState)
    (older newer : list message) :
  count ".csv" (base ++ ".csv") = 1 ->
  contains nl base = false ->
  lstrip base = base ->
  (forall x, In x newer -> marker_path x = None) ->
  run_specialist
    (appending_agent
       (older
          ++ ToolMessage
               (snd (perform_clustering (base ++ ".csv") df clusters
                       pca1 pca2 fs))
          :: newer)%list)
    name state
  = Some (mkUpdate
            (older
               ++ ToolMessage
                    (snd (perform_clustering (base ++ ".csv") df clusters
                            pca1 pca2 fs))
               :: newer)%list
            (cluster_output_path (base ++ ".csv"))).
Proof.
  intros C N L Hn. rewrite run_specialist_appending. f_equal. f_equal.
  rewrite rev_app_distr. cbn [rev]. rewrite <- List.app_assoc.
  unfold cluster_output_path.
  rewrite (replace_single_csv "_clustered.csv" base C).
  apply scan_first_marker.
  - intros x Hx. apply Hn. now apply in_rev.
  - now apply clustering_text_marker.
Qed.

Lemma clustering_path_reaches_pointer_witness :
  run_specialist
    (appending_agent
       [ToolMessage
          (snd (perform_clustering "data/raw.csv" (mkFrame [("a", 1)] 10)
                  2 3 4 []));
        AIMessage "Task Complete."])
    "clustering_agent"
    (mkState [HumanMessage "cluster"] None (Some "data/raw.csv"))
  = Some (mkUpdate
            [ToolMessage
               (snd (perform_clustering "data/raw.csv"
                       (mkFrame [("a", 1)] 10) 2 3 4 []));
             AIMessage "Task Complete."]
            (cluster_output_path "data/raw.csv")).
Proof.
  apply (clustering_path_reaches_pointer "data/raw" (mkFrame [("a", 1)] 10)
           2 3 4 [] "clustering_agent"
           (mkState [HumanMessage "cluster"] None (Some "data/raw.csv"))
           [] [AIMessage "Task Complete."]).
  - reflexivity.
  - reflexivity.
  - reflexivity.
  - intros x [<-|[]]. reflexivity.
Defined.

Lemma scan_saved_provenance (ms : list message) (d : string) :
  scan_saved ms d = d \/
  exists m c g, In m ms /\ content m = Some c /\
                re_search_saved c = Some g /\ scan_saved ms d = strip g.
Proof.
  induction ms as [|m ms IH]; [now left|].
  assert (K : scan_saved ms d = d \/
              exists m0 c g, In m0 (m :: ms) /\ content m0 = Some c /\
                             re_search_saved c = Some g /\
                             scan_saved ms d = strip g).
  { destruct IH as [E|(m0 & c & g & I & Hc & R & E)]; [now left|].
    right. exists m0, c, g. repeat split; auto. now right. }
  cbn [scan_saved].
  destruct (content m) as [c|] eqn:Hc; [|exact K].
  destruct (contains "saved to:" (lower c)); [|exact K].
  destruct (re_search_saved c) as [g|] eqn:R; [|exact K].
  right. exists m, c, g. repeat split; auto. now left.
Qed.

(** Where the pattern matches, the text reads "saved to: ", then the group,
    and the group ends in ".csv". *)
Lemma search_occurrence (c g : string) :
  re_search_saved c = Some g ->
  exists a rest q, c = a ++ "saved to: " ++ g ++ rest /\ g = q ++ ".csv".
Proof.
  intros H. apply search_leftmost in H as (i & M & _).
  destruct (match_saved_at_phrase _ _ M) as [b D].
  rewrite D, match_saved_at_intro in M.
  apply lazy_csv_shape in M as (q & rest & -> & Hg & _).
  exists (take i c), rest, q. split; [|exact Hg].
  rewrite <- D. symmetry. apply take_drop.
Qed.

Lemma strip_csv_group (q : string) :
  exists a, strip (q ++ ".csv") = a ++ ".csv".
Proof.
  destruct (lstrip_keeps q ".csv" "." "csv" "" eq_refl eq_refl) as [a E].
  change (".csv" ++ "") with ".csv" in E.
  exists a. unfold strip. rewrite E.
  rewrite rstrip_app; [reflexivity | discriminate].
Qed.

Lemma contains_refl (p : string) : contains p p = true.
Proof.
  pose proof (contains_intro p "" "") as H.
  now rewrite append_nil_r in H.
Qed.

(** X12: the pointer that [run_specialist] returns is never made up: it is
    the pointer of the input state (the empty string when there is none), or
    a text that ends in ".csv" and stands in a new message whose content
    has "saved to: " in it. *)
Theorem pointer_provenance
    (agent : AgentState -> nat -> option (list message))
    (name : string) (state : AgentState) (upd : SpecialistUpdate) :
  run_specialist agent name state = Some upd ->
  upd_df_path upd = get_or (df_path state) "" \/
  exists m c,
    In m (upd_messages upd) /\ content m = Some c /\
    contains "saved to: " c = true /\
    contains (upd_df_path upd) c = true /\
    endswith ".csv" (upd_df_path upd) = true.
Proof.
  destruct (agent (local_state state) recursion_limit) as [result|] eqn:A.
  2:{ unfold run_specialist. now rewrite A. }
  rewrite (run_specialist_returns agent name state result A).
  intros H. injection H as <-. cbn [upd_messages upd_df_path].
  destruct (scan_saved_provenance
              (rev (skipn (List.length (messages state) + 1) result))
              (get_or (df_path state) ""))
    as [E|(m & c & g & I & Hc & R & E)]; [now left|].
  right. exists m, c. rewrite E.
  apply search_occurrence in R as (a & rest & q & -> & ->).
  destruct (strip_csv_group q) as [a' Ha].
  split; [now apply in_rev|]. split; [exact Hc|]. split; [|split].
  - apply contains_intro.
  - destruct (strip_part (q ++ ".csv")) as (x & y & P).
    rewrite P at 2.
    replace (a ++ "saved to: " ++ (x ++ strip (q ++ ".csv") ++ y) ++ rest)
      with ((a ++ "saved to: " ++ x) ++ strip (q ++ ".csv") ++ (y ++ rest))
      by (now rewrite !append_assoc).
    apply contains_intro.
  - rewrite Ha. apply endswith_app.
Qed.

Lemma pointer_provenance_witness :
  "/data/b.csv" = get_or (Some "/data/raw.csv") "" \/
  exists m c,
    In m [ToolMessage "Results saved to: /data/b.csv. Done."] /\
    content m = Some c /\
    contains "saved to: " c = true /\
    contains "/data/b.csv" c = true /\
    endswith ".csv" "/data/b.csv" = true.
Proof.
  apply (pointer_provenance
           (appending_agent [ToolMessage "Results saved to: /data/b.csv. Done."])
           "clustering_agent"
           (mkState [HumanMessage "cluster"] None (Some "/data/raw.csv"))
           (mkUpdate [ToolMessage "Results saved to: /data/b.csv. Done."]
              "/data/b.csv")).
  reflexivity.
Defined.

(** X13: when the result of the specialist is no longer than the messages it
    was given, the slice beyond the recorded length is empty: no new
    message, and the pointer of the input state. *)
Theorem short_result_gives_nothing
    (agent : AgentState -> nat -> option (list message))
    (name : string) (state : AgentState) (result : list message) :
  agent (local_state state) recursion_limit = Some result ->
  List.length result <= List.length (messages state) + 1 ->
  run_specialist agent name state
  = Some (mkUpdate [] (get_or (df_path state) "")).
Proof.
  intros H L. rewrite (run_specialist_returns agent name state result H).
  now rewrite skipn_all2 by exact L.
Qed.

Lemma short_result_gives_nothing_witness :
  run_specialist (fun _ _ => Some [AIMessage "only this"]) "cleaning_agent"
    (mkState [HumanMessage "clean"] None (Some "/data/raw.csv"))
  = Some (mkUpdate [] "/data/raw.csv").
Proof.
  apply (short_result_gives_nothing
           (fun _ _ => Some [AIMessage "only this"]) "cleaning_agent"
           (mkState [HumanMessage "clean"] None (Some "/data/raw.csv"))
           [AIMessage "only this"]).
  - reflexivity.
  - simpl. lia.
Defined.

(** X14: when the frame read or the frame after cleaning is empty,
    [clean_data] writes no file and returns a text that starts with
    "Error: ". *)
Theorem clean_data_error_writes_nothing {column : Type} (fl : os_flavour)
    (repr : list string -> string) (p : string)
    (drop_columns : option (list string)) (df0 df : DataFrame column)
    (fs : filesystem column) :
  df_empty df0 = true \/ df_empty df = true ->
  fst (clean_data fl repr p drop_columns df0 df fs) = fs /\
  prefix "Error: " (snd (clean_data fl repr p drop_columns df0 df fs)) = true.
Proof.
  intros H. unfold clean_data.
  destruct (df_empty df0).
  - split; [reflexivity|]. cbn [snd].
    apply (prefix_app "Error: " ("The file at " ++ p ++ " is empty.")).
  - destruct H as [H|H]; [discriminate|]. rewrite H.
    split; reflexivity.
Qed.

Lemma clean_data_error_writes_nothing_witness :
  fst (clean_data Posix (fun _ => "[]") "data/raw.csv" None
         (mkFrame [("a", 1)] 0) (mkFrame [("a", 1)] 0) []) = [] /\
  prefix "Error: "
    (snd (clean_data Posix (fun _ => "[]") "data/raw.csv" None
            (mkFrame [("a", 1)] 0) (mkFrame [("a", 1)] 0) [])) = true.
Proof.
  apply (clean_data_error_writes_nothing Posix (fun _ => "[]") "data/raw.csv"
           None (mkFrame [("a", 1)] 0) (mkFrame [("a", 1)] 0) []).
  left. reflexivity.
Defined.

End Pipeline.

(** ** The graph *)

Module Graph.
Import PyStr StrFacts Router Bridge Pipeline.

(** X9: the supervisor decides FINISH exactly when no specialist is named in
    the answer; whether the word FINISH stands there plays no part. *)
Theorem finish_iff_no_agent (raw : string) :
  decide raw = "FINISH" <->
  forall m, In m members -> contains m raw = false.
Proof.
  rewrite decide_cascade. unfold members. split.
  - intros H m [<-|[<-|[<-|[]]]];
      destruct (contains "cleaning_agent" raw); try discriminate;
      destruct (contains "clustering_agent" raw); try discriminate;
      destruct (contains "visualization_agent" raw); try discriminate;
      reflexivity.
  - intros H. rewrite !H by (simpl; tauto). reflexivity.
Qed.

Lemma lookup_edge_decide (raw : string) :
  lookup_edge conditional_edges (decide raw) =
    if contains "cleaning_agent" raw then Some CleaningNode
    else if contains "clustering_agent" raw then Some ClusteringNode
    else if contains "visualization_agent" raw then Some VisualizationNode
    else Some EndNode.
Proof.
  rewrite decide_cascade.
  destruct (contains "cleaning_agent" raw); [reflexivity|].
  destruct (contains "clustering_agent" raw); [reflexivity|].
  destruct (contains "visualization_agent" raw); reflexivity.
Qed.

(** X8: no dead end after the supervisor.  Whatever the backend answers, the
    mapping of the conditional edges has an entry for the decision, so the
    supervisor's step goes on to a specialist or to the end, never back to
    the supervisor, and to the end exactly when the decision is FINISH; the
    step changes neither the messages nor the pointer. *)
Theorem supervisor_step_defined (llm : list message -> option string)
    (ags : Agents) (state : AgentState) (raw : string) :
  llm (SystemMessage (supervisor_prompt (get_or (df_path state) "None"))
       :: messages state) = Some raw ->
  exists next state',
    graph_step llm ags SupervisorNode state = Some (next, state') /\
    lookup_edge conditional_edges (decide raw) = Some next /\
    next <> SupervisorNode /\
    (next = EndNode <-> decide raw = "FINISH") /\
    next_node state' = Some (decide raw) /\
    messages state' = messages state /\
    df_path state' = df_path state.
Proof.
  intros H. cbn [graph_step].
  rewrite (supervisor_node_decide llm state raw H), lookup_edge_decide.
  rewrite decide_cascade.
  destruct (contains "cleaning_agent" raw);
    [|destruct (contains "clustering_agent" raw);
      [|destruct (contains "visualization_agent" raw)]];
    eexists; eexists; (split; [reflexivity|]);
    (split; [reflexivity|]); (split; [discriminate|]);
    (split; [split; discriminate || reflexivity|]);
    repeat split.
Qed.

Lemma supervisor_step_defined_witness :
  exists next state',
    graph_step (fun _ => Some "Not sure.")
      (mkAgents (appending_agent []) (appending_agent [])
         (appending_agent []))
      SupervisorNode (mkState [HumanMessage "hello"] None None)
    = Some (next, state') /\
    lookup_edge conditional_edges (decide "Not sure.") = Some next /\
    next <> SupervisorNode /\
    (next = EndNode <-> decide "Not sure." = "FINISH") /\
    next_node state' = Some (decide "Not sure.") /\
    messages state' = [HumanMessage "hello"] /\
    df_path state' = None.
Proof.
  apply (supervisor_step_defined (fun _ => Some "Not sure.")
           (mkAgents (appending_agent []) (appending_agent [])
              (appending_agent []))
           (mkState [HumanMessage "hello"] None None) "Not sure.").
  reflexivity.
Defined.

Lemma specialist_step_grows
    (agent : AgentState -> nat -> option (list message))
    (name : string) (state state' : AgentState) (next : node) :
  specialist_step agent name state = Some (next, state') ->
  next = SupervisorNode /\
  next_node state' = next_node state /\
  exists added, messages state' = (messages state ++ added)%list.
Proof.
  unfold specialist_step.
  destruct (run_specialist agent name state) as [upd|]; [|discriminate].
  intros H. injection H as <- <-. repeat split.
  now exists (upd_messages upd).
Qed.

Lemma graph_step_grows (llm : list message -> option string) (ags : Agents)
    (cur next : node) (state state' : AgentState) :
  graph_step llm ags cur state = Some (next, state') ->
  exists added, messages state' = (messages state ++ added)%list.
Proof.
  destruct cur; cbn [graph_step]; intros H;
    try (apply specialist_step_grows in H as (_ & _ & H); exact H);
    try discriminate.
  destruct (supervisor_node llm state) as [a|]; [|discriminate].
  destruct (lookup_edge conditional_edges a); [|discriminate].
  injection H as <- <-. exists []. cbn. now rewrite List.app_nil_r.
Qed.

Lemma node_eq_end (cur : node) : cur = EndNode \/ cur <> EndNode.
Proof. destruct cur; (now left) || (right; discriminate). Qed.

Lemma run_graph_end (limit : nat) (llm : list message -> option string)
    (ags : Agents) (state : AgentState) :
  run_graph limit llm ags EndNode state = Finished state.
Proof. now destruct limit. Qed.

Lemma run_graph_step (limit : nat) (llm : list message -> option string)
    (ags : Agents) (cur : node) (state : AgentState) :
  cur <> EndNode ->
  run_graph (S limit) llm ags cur state =
    match graph_step llm ags cur state with
    | Some (next, state') => run_graph limit llm ags next state'
    | None => Raised
    end.
Proof. destruct cur; intros H; [reflexivity .. | contradiction]. Qed.

(** X10: along a run of the graph the history only grows at its end: the
    messages of the state in which a run finishes, or reaches its limit,
    start with the messages of the state it began with. *)
Theorem run_graph_history_grows (limit : nat)
    (llm : list message -> option string) (ags : Agents) (cur : node)
    (state final : AgentState) :
  run_graph limit llm ags cur state = Finished final \/
  run_graph limit llm ags cur state = LimitReached final ->
  exists added, messages final = (messages state ++ added)%list.
Proof.
  revert cur state. induction limit as [|k IH]; intros cur state H.
  - exists []. rewrite List.app_nil_r.
    destruct cur; cbn in H; destruct H as [H|H]; congruence.
  - destruct (node_eq_end cur) as [->|Hc].
    + rewrite run_graph_end in H. exists []. rewrite List.app_nil_r.
      destruct H as [H|H]; congruence.
    + rewrite run_graph_step in H by exact Hc.
      destruct (graph_step llm ags cur state) as [[next state']|] eqn:G.
      * destruct (graph_step_grows _ _ _ _ _ _ G) as [a1 E1].
        destruct (IH next state' H) as [a2 E2].
        exists (a1 ++ a2)%list. now rewrite E2, E1, List.app_assoc.
      * destruct H as [H|H]; discriminate.
Qed.

Lemma run_graph_history_grows_witness :
  exists added,
    messages
      (mkState [HumanMessage "hello"] (Some "FINISH") (Some "/data/raw.csv"))
    = ([HumanMessage "hello"] ++ added)%list.
Proof.
  apply (run_graph_history_grows 3 (fun _ => Some "FINISH")
           (mkAgents (appending_agent []) (appending_agent [])
              (appending_agent []))
           SupervisorNode
           (mkState [HumanMessage "hello"] None (Some "/data/raw.csv"))).
  left. reflexivity.
Defined.

(** X11: the step of a specialist's node stores what the specialist added
    and nothing else.  When the result of the specialist is the messages it
    was given followed by [delta], the state after the step has the messages
    of the state before followed by [delta] (the context entry is not
    among them), the pointer found in [delta], and the supervisor runs
    next. *)
Theorem worker_step_stores_delta (llm : list message -> option string)
    (ags : Agents) (cur : node)
    (agent : AgentState -> nat -> option (list message))
    (state : AgentState) (delta : list message) :
  In (cur, agent)
     [(CleaningNode, cleaning_agent ags);
      (ClusteringNode, clustering_agent ags);
      (VisualizationNode, visualization_agent ags)] ->
  agent (local_state state) recursion_limit
  = Some (messages (local_state state) ++ delta)%list ->
  graph_step llm ags cur state
  = Some (SupervisorNode,
          mkState (messages state ++ delta)%list (next_node state)
            (Some (scan_saved (rev delta) (get_or (df_path state) "")))).
Proof.
  intros Hin H.
  assert (R : forall name,
             specialist_step agent name state
             = Some (SupervisorNode,
                     mkState (messages state ++ delta)%list (next_node state)
                       (Some (scan_saved (rev delta)
                                (get_or (df_path state) ""))))).
  { intros name. unfold specialist_step.
    rewrite (run_specialist_returns agent name state _ H).
    replace (List.length (messages state) + 1)
      with (List.length (messages (local_state state)))
      by (unfold local_state; cbn [messages]; now rewrite List.length_app).
    now rewrite skipn_length_app. }
  destruct Hin as [E|[E|[E|[]]]]; injection E as <- <-; apply R.
Qed.

Lemma worker_step_stores_delta_witness :
  graph_step (fun _ => None)
    (mkAgents (appending_agent
                 [ToolMessage "Results saved to: /data/b.csv. Done."])
       (appending_agent []) (appending_agent []))
    CleaningNode (mkState [HumanMessage "go"] None (Some "/data/raw.csv"))
  = Some (SupervisorNode,
          mkState
            [HumanMessage "go";
             ToolMessage "Results saved to: /data/b.csv. Done."]
            None (Some "/data/b.csv")).
Proof.
  apply (worker_step_stores_delta (fun _ => None)
           (mkAgents (appending_agent
                        [ToolMessage "Results saved to: /data/b.csv. Done."])
              (appending_agent []) (appending_agent []))
           CleaningNode
           (appending_agent
              [ToolMessage "Results saved to: /data/b.csv. Done."])
           (mkState [HumanMessage "go"] None (Some "/data/raw.csv"))
           [ToolMessage "Results saved to: /data/b.csv. Done."]).
  - left. reflexivity.
  - reflexivity.
Defined.

Lemma lookup_edge_end (action : string) :
  lookup_edge conditional_edges action = Some EndNode -> action = "FINISH".
Proof.
  unfold conditional_edges. cbn [lookup_edge].
  destruct ("cleaning_agent" =? action); [discriminate|].
  destruct ("clustering_agent" =? action); [discriminate|].
  destruct ("visualization_agent" =? action); [discriminate|].
  destruct ("FINISH" =? action) eqn:E; [|discriminate].
  intros _. apply String.eqb_eq in E. now symmetry.
Qed.

(** X15: a run that starts at a node of the graph and finishes has FINISH as
    its last decision: the end is reached from the supervisor only, and only
    on that decision. *)
Theorem finished_run_decided_finish (limit : nat)
    (llm : list message -> option string) (ags : Agents) (cur : node)
    (state final : AgentState) :
  cur <> EndNode ->
  run_graph limit llm ags cur state = Finished final ->
  next_node final = Some "FINISH".
Proof.
  revert cur state. induction limit as [|k IH]; intros cur state Hc H.
  - destruct cur; cbn in H; congruence.
  - rewrite run_graph_step in H by exact Hc.
    destruct (graph_step llm ags cur state) as [[next state']|] eqn:G;
      [|discriminate].
    destruct (node_eq_end next) as [->|Hn].
    + rewrite run_graph_end in H. injection H as <-.
      destruct cur; cbn [graph_step] in G;
        try (apply specialist_step_grows in G as (G & _); discriminate);
        try contradiction.
      destruct (supervisor_node llm state) as [a|]; [|discriminate].
      destruct (lookup_edge conditional_edges a) as [n|] eqn:L;
        [|discriminate].
      injection G as -> <-. cbn [next_node apply_supervisor].
      now rewrite (lookup_edge_end a L).
    + exact (IH next state' Hn H).
Qed.

Lemma finished_run_decided_finish_witness :
  next_node
    (mkState [HumanMessage "hello"] (Some "FINISH") (Some "/data/raw.csv"))
  = Some "FINISH".
Proof.
  apply (finished_run_decided_finish 3 (fun _ => Some "All done, FINISH.")
           (mkAgents (appending_agent []) (appending_agent [])
              (appending_agent []))
           SupervisorNode
           (mkState [HumanMessage "hello"] None (Some "/data/raw.csv"))).
  - discriminate.
  - reflexivity.
Defined.

End Graph.

(** ** The application *)

Module App.
Import PyStr StrFacts Bridge.

Lemma existsb_app_one (f : chat_entry -> bool) (l : list chat_entry)
    (x : chat_entry) :
  existsb f (l ++ [x]) = existsb f l || f x.
Proof. rewrite existsb_app. cbn. now rewrite orb_false_r. Qed.

(** X16: recording a prompt twice is recording it once, and after the
    recording an entry with the content of the prompt is there; it is the
    prompt's own entry only when no entry, of whatever role, had that
    content. *)
Theorem record_prompt_idempotent (prompt : string)
    (entries : list chat_entry) :
  record_prompt prompt (record_prompt prompt entries)
  = record_prompt prompt entries /\
  existsb (fun m => entry_content m =? prompt) (record_prompt prompt entries)
  = true /\
  (List.length (record_prompt prompt entries) = List.length entries
   <-> existsb (fun m => entry_content m =? prompt) entries = true).
Proof.
  unfold record_prompt.
  destruct (existsb (fun m => entry_content m =? prompt) entries) eqn:E.
  - rewrite E. repeat split; auto.
  - rewrite existsb_app_one, E. cbn [entry_content orb].
    rewrite String.eqb_refl. repeat split; auto.
    + rewrite List.length_app. cbn. lia.
    + discriminate.
Qed.

(** X17: the report of [perform_eda] carries the phrase that the application
    looks for before it shows the EDA view, whatever the correlations
    found. *)
Theorem eda_report_shows_view (high_corr_pairs : list string)
    (drops_repr shape_repr : string) :
  shows_eda_view (eda_report high_corr_pairs drops_repr shape_repr) = true.
Proof.
  unfold shows_eda_view, eda_report.
  set (head := (match high_corr_pairs with
                | [] => _
                | _ :: _ => _
                end ++ "- Data Shape: " ++ shape_repr ++ nl)).
  rewrite lower_app.
  change (lower "- Signals generated for UI: Correlation Heatmap and Feature Distributions.")
    with ("- " ++ "signals generated for ui"
          ++ ": correlation heatmap and feature distributions.").
  rewrite <- append_assoc. apply contains_intro.
Qed.

End App.
